(** * vscode-optipng: the command layer of [src/extension.ts]

    A shallow embedding of the three commands registered by [activate]
    (optimise one PNG, optimise a folder, optimise the PNGs changed in a Git
    repository) and of the two helpers that render the savings summary,
    followed by the properties of that code.

    - JavaScript numbers are IEEE 754 binary64 values, taken from the
      Standard Library's executable specification [SpecFloat].
    - The commands run in a small state-and-exception monad over the state
      of the editor host: the files on disk, the writes that were started
      and are not settled yet, and the history of the steps executed. *)

From Stdlib Require Import ZArith QArith Qround Lia Ascii String.
From Stdlib Require Import Floats.SpecFloat.
From stdpp Require Import base strings list gmap pretty.

Open Scope string_scope.
Open Scope Z_scope.

(** ** JavaScript numbers *)

Module Number.

Definition prec : Z := 53.
Definition emax : Z := 1024.

Definition number : Type := spec_float.

Definition NaN : number := S754_nan.
Definition Infinity : number := S754_infinity false.

(** The number nearest to an integer (ties to even), as a numeric literal
    or an array length is read. *)
Definition of_Z (z : Z) : number := binary_normalize prec emax z 0 false.
Definition of_nat (n : nat) : number := of_Z (Z.of_nat n).

Definition add : number -> number -> number := SFadd prec emax.
Definition sub : number -> number -> number := SFsub prec emax.
Definition mul : number -> number -> number := SFmul prec emax.
Definition div : number -> number -> number := SFdiv prec emax.

(** [x >= y]: false as soon as one side is NaN. *)
Definition ge (x y : number) : bool := SFleb y x.

(** The number nearest to the ratio [a / b] of two positive integers. *)
Definition of_ratio (a b : positive) : number :=
  div (S754_finite false a 0) (S754_finite false b 0).

(** *** Number.prototype.toFixed *)

(** [le_scaled m e c]: does [c <= m * 2^e] hold? *)
Definition le_scaled (m : positive) (e : Z) (c : Z) : bool :=
  if 0 <=? e then c <=? Zpos m * 2 ^ e else c * 2 ^ (- e) <=? Zpos m.

(** The integer [n] for which [n / 10^f - m * 2^e] is as close to zero as
    possible, the larger one when there are two. *)
Definition nearest_scaled (m : positive) (e : Z) (f : nat) : Z :=
  let num := Zpos m * 10 ^ Z.of_nat f in
  if 0 <=? e then num * 2 ^ e
  else (2 * num + 2 ^ (- e)) / 2 ^ (1 - e).

Fixpoint zeros (n : nat) : string :=
  match n with
  | O => ""
  | S n' => String "0"%char (zeros n')
  end.

(** Steps 9 and 10 of toFixed: the decimal digits of [n], padded on the
    left to [f + 1] digits, with a point before the last [f] digits. *)
Definition fixed_digits (n : Z) (f : nat) : string :=
  let m := pretty (Z.to_N n) in
  match f with
  | O => m
  | _ =>
      let k := String.length m in
      let m := if (k <=? f)%nat then zeros (f + 1 - k) ++ m else m in
      let k := String.length m in
      substring 0 (k - f) m ++ "." ++ substring (k - f) f m
  end.

(** *** Number::toString, radix 10 *)

(** The value of a finite number and the powers of ten, as fractions. *)
Definition value (m : positive) (e : Z) : Q :=
  if 0 <=? e then inject_Z (Zpos m * 2 ^ e) else Qmake (Zpos m) (Z.to_pos (2 ^ (- e))).

Definition pow10 (j : Z) : Q :=
  if 0 <=? j then inject_Z (10 ^ j) else Qmake 1 (Z.to_pos (10 ^ (- j))).

(** The number nearest to [s * 10^t]. *)
Definition of_decimal (s : positive) (t : Z) : number :=
  if 0 <=? t then of_ratio (s * Z.to_pos (10 ^ t)) 1
  else of_ratio s (Z.to_pos (10 ^ (- t))).

Definition same_finite (x : number) (m : positive) (e : Z) : bool :=
  match x with
  | S754_finite false m' e' => Pos.eqb m' m && Z.eqb e' e
  | _ => false
  end.

(** The [n] with [10^(n-1) <= m * 2^e < 10^n]: counted up from an
    estimate that lies below it. *)
Fixpoint count_up (fuel : nat) (x : Q) (n : Z) : Z :=
  match fuel with
  | O => n
  | S fuel' => if Qle_bool (pow10 n) x then count_up fuel' x (n + 1) else n
  end.

Definition decimal_exponent (m : positive) (e : Z) : Z :=
  let b := Z.log2 (Zpos m) + e in
  count_up 8 (value m e) (b * 30103 / 100000 - 1).

(** The digits [s] of length [k] whose [s * 10^(n-k)] reads back as the
    number, the closest one when the neighbours below and above both do
    (the even one when they are equally close). *)
Definition digits_of_length (m : positive) (e : Z) (n : Z) (k : nat) : option Z :=
  let x := value m e in
  let t := n - Z.of_nat k in
  let lo := Qfloor (x * pow10 (- t)) in
  let hi := lo + 1 in
  let reads_back s := (0 <? s) && same_finite (of_decimal (Z.to_pos s) t) m e in
  let hi_ok := reads_back hi && ((hi <? 10 ^ Z.of_nat k) || (k =? 1)%nat) in
  match reads_back lo, hi_ok with
  | false, false => None
  | true, false => Some lo
  | false, true => Some hi
  | true, true =>
      match Qcompare (x - inject_Z lo * pow10 t) (inject_Z hi * pow10 t - x) with
      | Lt => Some lo
      | Gt => Some hi
      | Eq => Some (if Z.even lo then lo else hi)
      end
  end.

Fixpoint shortest_digits (m : positive) (e : Z) (n : Z) (k : nat) (tries : nat) : nat * Z :=
  match tries with
  | O => (k, Qfloor (value m e * pow10 (- (n - Z.of_nat k))))
  | S tries' =>
      match digits_of_length m e n k with
      | Some s => (k, s)
      | None => shortest_digits m e n (S k) tries'
      end
  end.

Definition toString_positive (m : positive) (e : Z) : string :=
  let n0 := decimal_exponent m e in
  let '(k, s) := shortest_digits m e n0 1 17 in
  let '(n, s) := if s =? 10 ^ Z.of_nat k then (n0 + 1, 10 ^ (Z.of_nat k - 1)) else (n0, s) in
  let d := pretty (Z.to_N s) in
  if (Z.of_nat k <=? n) && (n <=? 21) then d ++ zeros (Z.to_nat n - k)
  else if (0 <? n) && (n <=? 21) then
    substring 0 (Z.to_nat n) d ++ "." ++ substring (Z.to_nat n) (k - Z.to_nat n) d
  else if (-6 <? n) && (n <=? 0) then "0." ++ zeros (Z.to_nat (- n)) ++ d
  else
    let c := if 0 <=? n - 1 then "+" else "-" in
    let ex := pretty (Z.to_N (Z.abs (n - 1))) in
    match k with
    | 1%nat => d ++ "e" ++ c ++ ex
    | _ => substring 0 1 d ++ "." ++ substring 1 (k - 1) d ++ "e" ++ c ++ ex
    end.

Definition toString (x : number) : string :=
  match x with
  | S754_nan => "NaN"
  | S754_zero _ => "0"
  | S754_infinity false => "Infinity"
  | S754_infinity true => "-Infinity"
  | S754_finite s m e => (if s then "-" else "") ++ toString_positive m e
  end.

(** [x.toFixed(f)], for [f] between 0 and 100. *)
Definition toFixed (x : number) (f : nat) : string :=
  match x with
  | S754_finite s m e =>
      (if s then "-" else "") ++
      (if le_scaled m e (10 ^ 21) then toString_positive m e
       else fixed_digits (nearest_scaled m e f) f)
  | S754_zero _ => fixed_digits 0 f
  | _ => toString x
  end.

End Number.

Import Number.

(** ** The savings summary (extension.ts, lines 54 to 64) *)

Definition hundred : number := of_Z 100.

Definition savingsString (in_len out_len : number) : string :=
  if ge in_len out_len
  then toString out_len ++ " bytes (" ++
       toFixed (mul (div (sub in_len out_len) in_len) hundred) 2 ++ "% smaller)"
  else toString out_len ++ " bytes (" ++
       toFixed (mul (div (sub out_len in_len) in_len) hundred) 2 ++ "% larger)".

Definition savingsStringPercent (in_len out_len : number) : string :=
  if ge in_len out_len
  then "(" ++ toFixed (mul (div (sub in_len out_len) in_len) hundred) 2 ++ "% smaller)"
  else "(" ++ toFixed (mul (div (sub out_len in_len) in_len) hundred) 2 ++ "% larger)".

(** ** The editor host *)

(** A [Uint8Array]. *)
Definition bytes : Type := list Byte.byte.

(** A [vscode.Uri], reduced to the path the code reads from it. *)
Record Uri : Type := { fsPath : string }.

(** A value thrown by the host, or the reason of a rejected promise. *)
Record exn : Type := { message : string }.

Module vscOxipng.
(** Modelled from the spec: the metadata policy declared in [./vscOxipng],
    which is not among the sources; the spec names the three policies
    preserve-all, strip-safe and strip-all, and the code uses [safe]. *)
Inductive StripMetadata : Type := none | safe | all.
End vscOxipng.

(** A repository of the Git extension, and the argument the source control
    view passes to the command. *)
Record Repository : Type := { rootUri : option Uri; handle : nat }.
Record SourceControl : Type := { sc_rootUri : Uri }.

Record GitAPI : Type := {
  repositories : list Repository;
  getRepository : Uri -> option Repository
}.

(** Everything the commands call and that is not defined in extension.ts. *)
Record Host : Type := {
  (** [api.optimise] of the engine *)
  api_optimise : bytes -> Z -> vscOxipng.StripMetadata -> exn + bytes;
  (** the error of [vscode.workspace.fs.readFile] on a file that is absent *)
  read_error : Uri -> exn;
  (** whether, and how, [vscode.workspace.fs.writeFile] fails on a file *)
  write_error : Uri -> option exn;
  (** how many of the oldest unsettled writes are settled while the command
      is suspended for the n-th time *)
  settles : nat -> nat;
  (** [fileName] and [readDirectoryRecursivePNGs] of [./utils/files] *)
  fileName : Uri -> string;
  readDirectoryRecursivePNGs : Uri -> exn + list Uri;
  (** [path.parse(p).base] *)
  path_base : string -> string;
  (** [getAPI(1)] of the extension vscode.git, when it is enabled *)
  gitApi : option GitAPI;
  (** [gitModifiedPNGs] of [./utils/git] *)
  gitModifiedPNGs : Repository -> exn + list Uri;
  (** the answer of the user to [vscode.window.showQuickPick] *)
  quickPick : list (option string) -> option string
}.

(** The steps a command executes, in the order it executes them; calls that
    are awaited carry their result. *)
Inductive step : Type :=
  | ShowInformationMessage (msg : string)
  | ShowErrorMessage (msg : string)
  | ConsoleLog (files : list Uri)
  | ReadDirectory (root : Uri) (result : exn + list Uri)
  | ShowQuickPick (items : list (option string)) (picked : option string)
  | GitModifiedPNGs (repo : Repository) (result : exn + list Uri)
  | WithProgress (title : string)
  | Report (increment : number) (msg : string)
  | ReadFile (file : Uri) (result : exn + bytes)
  | Optimise (data : bytes) (level : Z) (strip : vscOxipng.StripMetadata)
             (result : exn + bytes)
  | SetTimeout (ms : Z)
  | AddSavings (in_len out_len : number)
  | WriteFile (file : Uri) (data : bytes).

(** A write that the host has carried out: [at_step] is the number of steps
    the command had executed by then. *)
Record settlement : Type := {
  settled_file : Uri;
  settled_data : bytes;
  settled_error : option exn;
  at_step : nat
}.

Record State : Type := {
  (** the files on disk, by path *)
  disk : gmap string bytes;
  (** writes started and not settled, oldest first *)
  pending : list (Uri * bytes);
  (** writes settled so far, oldest first *)
  settled : list settlement;
  (** number of times the command was suspended *)
  suspensions : nat;
  (** the steps executed so far, oldest first *)
  history : list step;
  (** the two accumulators of a batch command *)
  pngSavingsIn : number;
  pngSavingsOut : number
}.

Definition initial (files : gmap string bytes) : State :=
  {| disk := files; pending := []; settled := []; suspensions := 0;
     history := []; pngSavingsIn := of_Z 0; pngSavingsOut := of_Z 0 |}.

Inductive outcome (A : Type) : Type :=
  | Returned (a : A)
  | Thrown (e : exn).
Arguments Returned {A} a.
Arguments Thrown {A} e.

(** ** The command monad: state of the host, and exceptions *)

Definition M (A : Type) : Type := State -> outcome A * State.

Definition ret {A} (a : A) : M A := fun s => (Returned a, s).

Definition bind {A B} (m : M A) (f : A -> M B) : M B :=
  fun s =>
    match m s with
    | (Returned a, s') => f a s'
    | (Thrown e, s') => (Thrown e, s')
    end.

Definition throw {A} (e : exn) : M A := fun s => (Thrown e, s).

Declare Scope cmd_scope.
Delimit Scope cmd_scope with cmd.
Notation "x <- m ;; k" := (bind m (fun x => k))
  (at level 100, m at next level, right associativity) : cmd_scope.
Notation "m ;; k" := (bind m (fun _ => k))
  (at level 100, right associativity) : cmd_scope.
Open Scope cmd_scope.

Definition log (st : step) : M unit :=
  fun s =>
    (Returned tt,
     {| disk := disk s; pending := pending s; settled := settled s;
        suspensions := suspensions s; history := history s ++ [st];
        pngSavingsIn := pngSavingsIn s; pngSavingsOut := pngSavingsOut s |}).

(** [let pngSavingsIn = 0; let pngSavingsOut = 0;] *)
Definition resetSavings : M unit :=
  fun s =>
    (Returned tt,
     {| disk := disk s; pending := pending s; settled := settled s;
        suspensions := suspensions s; history := history s;
        pngSavingsIn := of_Z 0; pngSavingsOut := of_Z 0 |}).

(** [pngSavingsIn += in_len; pngSavingsOut += out_len;] *)
Definition addSavings (in_len out_len : number) : M unit :=
  fun s =>
    (Returned tt,
     {| disk := disk s; pending := pending s; settled := settled s;
        suspensions := suspensions s;
        history := history s ++ [AddSavings in_len out_len];
        pngSavingsIn := add (pngSavingsIn s) in_len;
        pngSavingsOut := add (pngSavingsOut s) out_len |}).

Definition getSavings : M (number * number) :=
  fun s => (Returned (pngSavingsIn s, pngSavingsOut s), s).

(** [for (let i = 0; i < count; i++) body(i)], with [count] the number of
    iterations that remain and [i] the current index. *)
Fixpoint for_loop (count : nat) (i : nat) (body : nat -> M unit) : M unit :=
  match count with
  | O => ret tt
  | S count' => body i ;; for_loop count' (S i) body
  end.

Section Commands.

Variable host : Host.

(** The host carries out one write: the file changes unless the write
    fails. *)
Definition settle_one (w : Uri * bytes) (s : State) : State :=
  let '(file, data) := w in
  {| disk := match write_error host file with
             | None => <[fsPath file := data]> (disk s)
             | Some _ => disk s
             end;
     pending := pending s;
     settled := settled s ++
       [{| settled_file := file; settled_data := data;
           settled_error := write_error host file;
           at_step := length (history s) |}];
     suspensions := suspensions s; history := history s;
     pngSavingsIn := pngSavingsIn s; pngSavingsOut := pngSavingsOut s |}.

(** The command is suspended: the host settles some of the writes that
    were started, oldest first. *)
Definition suspend (s : State) : State :=
  let k := settles host (suspensions s) in
  let s' := foldl (fun acc w => settle_one w acc) s (take k (pending s)) in
  {| disk := disk s'; pending := drop k (pending s); settled := settled s';
     suspensions := S (suspensions s); history := history s;
     pngSavingsIn := pngSavingsIn s; pngSavingsOut := pngSavingsOut s |}.

(** [await request]: the request is made, the command is suspended, and
    resumes with the result or the exception. *)
Definition await {A} (request : M A) : M A :=
  fun s => let '(r, s') := request s in (r, suspend s').

Definition of_result {A} (r : exn + A) : M A :=
  match r with
  | inl e => throw e
  | inr a => ret a
  end.

(** *** The calls into the host *)

Definition showInformationMessage (msg : string) : M unit :=
  log (ShowInformationMessage msg).

Definition showErrorMessage (msg : string) : M unit :=
  log (ShowErrorMessage msg).

Definition consoleLog (files : list Uri) : M unit := log (ConsoleLog files).

Definition report (increment : number) (msg : string) : M unit :=
  log (Report increment msg).

(** [vscode.workspace.fs.readFile(file)] *)
Definition readFile (file : Uri) : M bytes :=
  fun s =>
    let r := match disk s !! fsPath file with
             | Some data => inr data
             | None => inl (read_error host file)
             end in
    (log (ReadFile file r) ;; of_result r) s.

(** [api.optimise(data, level, strip)] *)
Definition optimise (data : bytes) (level : Z) (strip : vscOxipng.StripMetadata)
  : M bytes :=
  let r := api_optimise host data level strip in
  log (Optimise data level strip r) ;; of_result r.

(** [vscode.workspace.fs.writeFile(file, data)]: the write is started and
    the promise it returns is dropped. *)
Definition writeFile (file : Uri) (data : bytes) : M unit :=
  fun s =>
    (Returned tt,
     {| disk := disk s; pending := pending s ++ [(file, data)];
        settled := settled s; suspensions := suspensions s;
        history := history s ++ [WriteFile file data];
        pngSavingsIn := pngSavingsIn s; pngSavingsOut := pngSavingsOut s |}).

(** [new Promise((resolve) => setTimeout(resolve, ms))] *)
Definition sleep (ms : Z) : M unit := log (SetTimeout ms).

Definition readDirectory (root : Uri) : M (list Uri) :=
  let r := readDirectoryRecursivePNGs host root in
  log (ReadDirectory root r) ;; of_result r.

Definition modifiedPNGs (repo : Repository) : M (list Uri) :=
  let r := gitModifiedPNGs host repo in
  log (GitModifiedPNGs repo r) ;; of_result r.

Definition showQuickPick (items : list (option string)) : M (option string) :=
  let r := quickPick host items in
  log (ShowQuickPick items r) ;; ret r.

(** [vscode.window.withProgress(options, task)] runs the task with a
    progress object. *)
Definition withProgress (title : string) (task : M unit) : M unit :=
  log (WithProgress title) ;; task.

(** [files[i]]; an index out of range gives [undefined], on which the
    calls that follow throw. *)
Definition item (files : list Uri) (i : nat) : M Uri :=
  match files !! i with
  | Some file => ret file
  | None => throw {| message := "TypeError" |}
  end.

(** *** oxipng.optimisePng (extension.ts, lines 74 to 84) *)

Definition commandOptimise (param : Uri) : M unit :=
  showInformationMessage ("Called: " ++ fsPath param) ;;
  in_data <- await (readFile param) ;;
  out_data <- await (optimise in_data 2 vscOxipng.safe) ;;
  showInformationMessage ("Optimised: " ++ fsPath param) ;;
  let savings :=
    savingsString (of_nat (length in_data)) (of_nat (length out_data)) in
  showInformationMessage savings ;;
  writeFile param out_data.

(** *** oxipng.optimisePngFolder (extension.ts, lines 86 to 122) *)

Definition folderBody (files : list Uri) (pngFilesCount : nat) (i : nat) : M unit :=
  file <- item files i ;;
  report (div hundred (of_nat pngFilesCount)) (fileName host file) ;;
  in_data <- await (readFile file) ;;
  out_data <- await (optimise in_data 1 vscOxipng.safe) ;;
  addSavings (of_nat (length in_data)) (of_nat (length out_data)) ;;
  writeFile file out_data.

Definition commandOptimiseFolder (param : Uri) : M unit :=
  files <- await (readDirectory param) ;;
  consoleLog files ;;
  let pngFilesCount := length files in
  resetSavings ;;
  await (withProgress "Optimising PNGs"
    (report (of_Z 0) "Starting..." ;;
     for_loop pngFilesCount 0 (folderBody files pngFilesCount))) ;;
  totals <- getSavings ;;
  showInformationMessage
    ("Optimised " ++ toString (of_nat pngFilesCount) ++ " PNGs " ++
     savingsStringPercent (fst totals) (snd totals)).

(** *** oxipng.optimisePngGitChanges (extension.ts, lines 124 to 191) *)

(** Lines 132 to 152: the repository the command works on. *)
Definition selectRepository (git : GitAPI) (param : option SourceControl)
  : M (option Repository) :=
  match param with
  | None =>
      match repositories git with
      | [] => ret None
      | [repo] => ret (Some repo)
      | repos =>
          result <- await (showQuickPick
                      (map (fun repo => fsPath <$> rootUri repo) repos)) ;;
          match result with
          | Some path =>
              if decide (path = "") then ret None
              else ret (getRepository git {| fsPath := path |})
          | None => ret None
          end
      end
  | Some sc => ret (getRepository git (sc_rootUri sc))
  end.

Definition gitBody (pngFiles : list Uri) (pngFilesCount : nat) (i : nat) : M unit :=
  file <- item pngFiles i ;;
  report (div hundred (of_nat pngFilesCount)) (path_base host (fsPath file)) ;;
  in_data <- await (readFile file) ;;
  out_data <- await (optimise in_data 1 vscOxipng.safe) ;;
  await (sleep 2000) ;;
  addSavings (of_nat (length in_data)) (of_nat (length out_data)) ;;
  writeFile file out_data.

Definition commandOptimiseGitChanges (param : option SourceControl) : M unit :=
  match gitApi host with
  | None => showErrorMessage "Git extension isn't enabled"
  | Some git =>
      repo <- selectRepository git param ;;
      match repo with
      | None => showErrorMessage "No repository found"
      | Some repo =>
          pngFiles <- await (modifiedPNGs repo) ;;
          let pngFilesCount := length pngFiles in
          resetSavings ;;
          await (withProgress "Optimising PNGs"
            (report (of_Z 0) "Starting..." ;;
             for_loop pngFilesCount 0 (gitBody pngFiles pngFilesCount))) ;;
          totals <- getSavings ;;
          showInformationMessage
            ("Optimised " ++ toString (of_nat pngFilesCount) ++ " PNGs " ++
             savingsStringPercent (fst totals) (snd totals))
      end
  end.

End Commands.

(** ** What a batch does with one file *)

Inductive attempt : Type :=
  | Completed (file : Uri) (in_data out_data : bytes)
  | ReadFailed (file : Uri) (e : exn)
  | EngineFailed (file : Uri) (in_data : bytes) (e : exn).

Definition attempt_file (a : attempt) : Uri :=
  match a with
  | Completed file _ _ | ReadFailed file _ | EngineFailed file _ _ => file
  end.

Definition failure (a : attempt) : option exn :=
  match a with
  | Completed _ _ _ => None
  | ReadFailed _ e | EngineFailed _ _ e => Some e
  end.

Definition completed (a : attempt) : Prop := failure a = None.

(** The sizes an attempt adds to the two accumulators. *)
Definition in_size (a : attempt) : nat :=
  match a with
  | Completed _ in_data _ => length in_data
  | _ => 0
  end.

Definition out_size (a : attempt) : nat :=
  match a with
  | Completed _ _ out_data => length out_data
  | _ => 0
  end.

Definition add_sizes (size : attempt -> nat) (total : number) (a : attempt) : number :=
  match a with
  | Completed _ _ _ => add total (of_nat (size a))
  | _ => total
  end.

(** The steps of one attempt: [pause] tells whether the batch waits after
    the engine call, [label] is the name reported for the file and [count]
    the number of files of the batch. *)
Definition attempt_steps (pause : bool) (label : Uri -> string) (count : nat)
    (a : attempt) : list step :=
  let progress file := Report (div hundred (of_nat count)) (label file) in
  match a with
  | Completed file in_data out_data =>
      [progress file; ReadFile file (inr in_data);
       Optimise in_data 1 vscOxipng.safe (inr out_data)] ++
      (if pause then [SetTimeout 2000] else []) ++
      [AddSavings (of_nat (length in_data)) (of_nat (length out_data));
       WriteFile file out_data]
  | ReadFailed file e => [progress file; ReadFile file (inl e)]
  | EngineFailed file in_data e =>
      [progress file; ReadFile file (inr in_data);
       Optimise in_data 1 vscOxipng.safe (inl e)]
  end.

(** How a loop over [files] can end: every file completed, or the files
    before the failing one completed and the loop threw the error of the
    failing call. *)
Definition loop_result (files : list Uri) (atts : list attempt)
    (r : outcome unit) : Prop :=
  map attempt_file atts = take (length atts) files /\
  ((r = Returned tt /\ length atts = length files /\ Forall completed atts) \/
   (exists done a e, r = Thrown e /\ atts = (done ++ [a])%list /\
      Forall completed done /\ failure a = Some e)).

(** The body shared by the two loops, for one file, and the iteration over
    the files themselves; the loops of the source are instances (see
    [folderBody_batchFile] and [gitBody_batchFile]). *)
Definition batchFile (host : Host) (pause : bool) (label : Uri -> string)
    (count : nat) (file : Uri) : M unit :=
  report (div hundred (of_nat count)) (label file) ;;
  in_data <- await host (readFile host file) ;;
  out_data <- await host (optimise host in_data 1 vscOxipng.safe) ;;
  (if pause then await host (sleep 2000) else ret tt) ;;
  addSavings (of_nat (length in_data)) (of_nat (length out_data)) ;;
  writeFile file out_data.

Fixpoint each (files : list Uri) (body : Uri -> M unit) : M unit :=
  match files with
  | [] => ret tt
  | file :: files' => body file ;; each files' body
  end.

(** * The vocabulary of the properties *)

Open Scope list_scope.

(** ** Numbers that hold integers, and decimal places *)

(** The mantissa [c], scaled by [2^k]. *)
Definition scaled (c : positive) (k : Z) : positive := Z.to_pos (Zpos c * 2 ^ k).

(** The number whose value is the integer [c], when [c] has at most 53
    binary digits. *)
Definition normal (c : positive) : number :=
  S754_finite false (scaled c (53 - Zpos (digits2_pos c))) (Zpos (digits2_pos c) - 53).

(** The numbers that hold an integer exactly: the sizes and totals of the
    batches are of this kind. *)
Definition exact_integer (n : Z) : Prop := 0 <= n < 2 ^ 53.

(** The decimal digit [d]. *)
Definition digit (d : Z) : ascii := pretty_N_char (Z.to_N d).

(** [n] hundredths, written with two decimal places. *)
Definition two_decimals (n : Z) : string :=
  (pretty (Z.to_N (n / 100)) ++ "." ++
   String (digit (n / 10 mod 10)) (String (digit (n mod 10)) ""))%string.

(** [n] is the number of hundredths nearest to the number [y], the larger
    one when two are equally near. *)
Definition nearest_hundredth (y : number) (n : Z) : Prop :=
  match y with
  | S754_zero _ => n = 0
  | S754_finite false m e =>
      (inject_Z n - (1 # 2) <= inject_Z 100 * value m e)%Q /\
      (inject_Z 100 * value m e < inject_Z n + (1 # 2))%Q
  | _ => False
  end.

(** ** Steps, attempts and batches *)

(** The totals of the attempts of a batch. *)
Definition total_in (atts : list attempt) : number :=
  foldl (add_sizes in_size) (of_Z 0) atts.

Definition total_out (atts : list attempt) : number :=
  foldl (add_sizes out_size) (of_Z 0) atts.

Definition summary (count : nat) (atts : list attempt) : string :=
  ("Optimised " ++ toString (of_nat count) ++ " PNGs " ++
   savingsStringPercent (total_in atts) (total_out atts))%string.

(** The steps of a batch over [count] files whose attempts are [atts] and
    which ends with [r]. *)
Definition batch_steps (pause : bool) (label : Uri -> string) (count : nat)
    (atts : list attempt) (r : outcome unit) : list step :=
  [WithProgress "Optimising PNGs"; Report (of_Z 0) "Starting..."] ++
  concat (map (attempt_steps pause label count) atts) ++
  match r with
  | Returned _ => [ShowInformationMessage (summary count atts)]
  | Thrown _ => []
  end.

(** Lines 95 to 120, and 162 to 189, with the body of the loop left open. *)
Definition batch (host : Host) (count : nat) (body : nat -> M unit) : M unit :=
  resetSavings ;;
  await host (withProgress "Optimising PNGs"
    (report (of_Z 0) "Starting..." ;; for_loop count 0 body)) ;;
  totals <- getSavings ;;
  showInformationMessage
    ("Optimised " ++ toString (of_nat count) ++ " PNGs " ++
     savingsStringPercent (fst totals) (snd totals))%string.

(** The steps a command adds to the history. *)
Definition steps_of {A} (m : M A) (s : State) : list step :=
  drop (length (history s)) (history (m s).2).

Definition folder_steps (host : Host) (param : Uri) (files : list Uri)
    (atts : list attempt) (r : outcome unit) : list step :=
  [ReadDirectory param (inr files); ConsoleLog files] ++
  batch_steps false (fileName host) (length files) atts r.

Definition changes_steps (host : Host) (repo : Repository) (files : list Uri)
    (atts : list attempt) (r : outcome unit) : list step :=
  [GitModifiedPNGs repo (inr files)] ++
  batch_steps true (fun file => path_base host (fsPath file)) (length files) atts r.

(** The entries offered to the user: the root path of each repository. *)
Definition root_paths (repos : list Repository) : list (option string) :=
  map (fun repo => fsPath <$> rootUri repo) repos.

(** A step that shows a message to the user. *)
Definition user_message (st : step) : bool :=
  match st with
  | ShowInformationMessage _ | ShowErrorMessage _ => true
  | _ => false
  end.

(** A step that reads or writes a file. *)
Definition touches_file (st : step) : bool :=
  match st with
  | ReadFile _ _ | WriteFile _ _ => true
  | _ => false
  end.

(** A property of lists of steps that holds of the empty list and of the
    concatenation of two lists of which it holds. *)
Record closed (Q : list step -> Prop) : Prop := {
  closed_nil : Q [];
  closed_app : forall l1 l2, Q l1 -> Q l2 -> Q (l1 ++ l2)
}.

(** [emits Q m]: from every state, [m] only adds steps to the history, and
    [Q] holds of the steps it adds. *)
Definition emits (Q : list step -> Prop) {A} (m : M A) : Prop :=
  forall s, exists l, history (m s).2 = history s ++ l /\ Q l.

(** The step is not an engine call, or it is the call of the engine of the
    host with this level and this policy. *)
Definition engine_called_with (host : Host) (level : Z)
    (strip : vscOxipng.StripMetadata) (st : step) : Prop :=
  match st with
  | Optimise data level' strip' result =>
      level' = level /\ strip' = strip /\
      result = api_optimise host data level strip
  | _ => True
  end.

(** Every engine call that succeeds is followed at once by a pause of 2000
    milliseconds, then by the update of the accumulators, then by the write
    of the result. *)
Fixpoint paused_after_engine (l : list step) : Prop :=
  match l with
  | [] => True
  | Optimise _ _ _ (inr out_data) :: rest =>
      (exists a b file rest',
         rest = SetTimeout 2000 :: AddSavings a b :: WriteFile file out_data :: rest') /\
      paused_after_engine rest
  | _ :: rest => paused_after_engine rest
  end.

Definition is_pause (st : step) : bool :=
  match st with
  | SetTimeout _ => true
  | _ => false
  end.

(** The progress reports among some steps: increment and message. *)
Fixpoint reports (l : list step) : list (number * string) :=
  match l with
  | [] => []
  | Report increment msg :: rest => (increment, msg) :: reports rest
  | _ :: rest => reports rest
  end.

(** Every read of a file comes right after the progress report that
    carries the name of that file; [prev] is the step before the list. *)
Fixpoint reads_announced (label : Uri -> string) (prev : option step)
    (l : list step) : Prop :=
  match l with
  | [] => True
  | st :: rest =>
      match st with
      | ReadFile file _ => exists increment, prev = Some (Report increment (label file))
      | _ => True
      end /\
      reads_announced label (Some st) rest
  end.

(** The error of a step that is a failed read or a failed engine call. *)
Definition call_error (st : step) : option exn :=
  match st with
  | ReadFile _ (inl e) | Optimise _ _ _ (inl e) => Some e
  | _ => None
  end.

Definition call_failed (st : step) : Prop := is_Some (call_error st).

(** The steps of a batch that stops at the attempt [a], after the attempts
    [done]. *)
Definition aborted_steps (pause : bool) (label : Uri -> string) (count : nat)
    (done : list attempt) (a : attempt) : list step :=
  [WithProgress "Optimising PNGs"; Report (of_Z 0) "Starting..."] ++
  concat (map (attempt_steps pause label count) done) ++
  attempt_steps pause label count a.

(** An engine that drops the first byte of its input and rejects an empty
    input. *)
Definition demo_engine (data : bytes) (level : Z) (strip : vscOxipng.StripMetadata)
    : exn + bytes :=
  match data with
  | [] => inl {| message := "oxipng: not a PNG" |}
  | _ :: rest => inr rest
  end.

(** A host that lists [listing] for every folder and repository, settles
    every write as soon as the command is suspended, and answers [answer]
    when it is asked to pick. *)
Definition demo_host (listing : list Uri) (git : option GitAPI)
    (answer : option string) : Host :=
  {| api_optimise := demo_engine;
     read_error := fun _ => {| message := "EntryNotFound (FileSystemError)" |};
     write_error := fun _ => None;
     settles := fun _ => 16%nat;
     fileName := fsPath;
     readDirectoryRecursivePNGs := fun _ => inr listing;
     path_base := fun p => p;
     gitApi := git;
     gitModifiedPNGs := fun _ => inr listing;
     quickPick := fun _ => answer |}.

Definition folder : Uri := {| fsPath := "/w" |}.
Definition png1 : Uri := {| fsPath := "/w/1.png" |}.
Definition png2 : Uri := {| fsPath := "/w/2.png" |}.
Definition png3 : Uri := {| fsPath := "/w/3.png" |}.
Definition png4 : Uri := {| fsPath := "/w/4.png" |}.
Definition png5 : Uri := {| fsPath := "/w/5.png" |}.

(** Five files, the third of which is empty, so that the engine fails on it. *)
Definition five_files : list Uri := [png1; png2; png3; png4; png5].

Definition five_disk : gmap string bytes :=
  <["/w/1.png" := [Byte.x89; Byte.x50; Byte.x4e]]>
  (<["/w/2.png" := [Byte.x89; Byte.x50]]>
  (<["/w/3.png" := []]>
  (<["/w/4.png" := [Byte.x89]]>
  (<["/w/5.png" := [Byte.x89]]> ∅)))).

Definition two_files : list Uri := [png1; png2].

Definition repo1 : Repository := {| rootUri := Some {| fsPath := "/r1" |}; handle := 1 |}.
Definition repo2 : Repository := {| rootUri := Some {| fsPath := "/r2" |}; handle := 2 |}.

Definition demo_git (repos : list Repository) : GitAPI :=
  {| repositories := repos;
     getRepository := fun root =>
       List.find (fun repo => bool_decide (fsPath <$> rootUri repo = Some (fsPath root)))
         repos |}.

(** [contains needle hay]: [needle] occurs in [hay]. *)
Fixpoint contains (needle hay : string) : bool :=
  String.prefix needle hay ||
  match hay with
  | EmptyString => false
  | String _ hay' => contains needle hay'
  end.

(** C2 as stated: the error names the failing file and states how many
    files were completed. *)
Definition names_failure (e : exn) (file : Uri) (done : nat) : bool :=
  contains (fsPath file) (message e) &&
  contains (toString (of_nat done) ++ " completed")%string (message e).

(** C4 as stated: the command shows no message. *)
Definition silent (l : list step) : Prop := Forall (fun st => user_message st = false) l.

(** C5 as stated: every write has settled before the step that follows it
    begins. *)
Definition writes_settled_in_turn (s : State) : Prop :=
  forall i file data,
    history s !! i = Some (WriteFile file data) ->
    is_Some (history s !! S i) ->
    exists w, w ∈ settled s /\ settled_file w = file /\ settled_data w = data /\
              (at_step w <= S i)%nat.

(** The sizes of the data that were read, and of the results of the engine,
    among some steps. *)
Fixpoint read_sizes (l : list step) : list nat :=
  match l with
  | [] => []
  | ReadFile _ (inr data) :: rest => length data :: read_sizes rest
  | _ :: rest => read_sizes rest
  end.

Fixpoint result_sizes (l : list step) : list nat :=
  match l with
  | [] => []
  | Optimise _ _ _ (inr data) :: rest => length data :: result_sizes rest
  | _ :: rest => result_sizes rest
  end.

(** The host carries out, in the order in which they were started, the
    writes that are still unsettled when the command has ended. *)
Definition drain (host : Host) (s : State) : State :=
  let s' := foldl (fun acc w => settle_one host w acc) s (pending s) in
  {| disk := disk s'; pending := []; settled := settled s';
     suspensions := suspensions s; history := history s;
     pngSavingsIn := pngSavingsIn s; pngSavingsOut := pngSavingsOut s |}.

(** The writes started among some steps, and the results the engine
    returned. *)
Fixpoint writes (l : list step) : list (Uri * bytes) :=
  match l with
  | [] => []
  | WriteFile file data :: rest => (file, data) :: writes rest
  | _ :: rest => writes rest
  end.

Fixpoint engine_results (l : list step) : list bytes :=
  match l with
  | [] => []
  | Optimise _ _ _ (inr data) :: rest => data :: engine_results rest
  | _ :: rest => engine_results rest
  end.

(** Every write goes to the file that was read last, and there is at most
    one write after each read; [cur] is the file read last before the list,
    when no write has followed it. *)
Fixpoint writes_to_last_read (cur : option Uri) (l : list step) : Prop :=
  match l with
  | [] => True
  | ReadFile file _ :: rest => writes_to_last_read (Some file) rest
  | WriteFile file _ :: rest => cur = Some file /\ writes_to_last_read None rest
  | _ :: rest => writes_to_last_read cur rest
  end.

(** ** The files, once the writes are carried out *)

(** The file system once a write is carried out. *)
Definition apply_write (host : Host) (d : gmap string bytes) (w : Uri * bytes)
    : gmap string bytes :=
  match write_error host w.1 with
  | None => <[fsPath w.1 := w.2]> d
  | Some _ => d
  end.

(** The files as they will be when the host has settled every write. *)
Definition eventual (host : Host) (s : State) : gmap string bytes :=
  foldl (apply_write host) (disk s) (pending s).

(** The paths of the files of some writes. *)
Definition written_paths (ws : list (Uri * bytes)) : list string :=
  map (fun w => fsPath w.1) ws.

(** What a file holds once the write [w] is settled, when it held
    [before]: the bytes written, or what it held when the write fails. *)
Definition outcome_of_write (host : Host) (before : option bytes) (w : Uri * bytes)
    : option bytes :=
  match write_error host w.1 with
  | None => Some w.2
  | Some _ => before
  end.

(** The state of the files during a batch that started from the files [d0]
    and has started the writes [ws]: every write will be settled, and the
    files that were not written are as they were. *)
Definition files_follow (host : Host) (d0 : gmap string bytes)
    (ws : list (Uri * bytes)) (s : State) : Prop :=
  (forall w, w ∈ ws ->
     eventual host s !! fsPath w.1 = outcome_of_write host (d0 !! fsPath w.1) w) /\
  (forall p, p ∉ written_paths ws ->
     eventual host s !! p = d0 !! p /\ disk s !! p = d0 !! p) /\
  (forall w, w ∈ pending s -> fsPath w.1 ∈ written_paths ws).

(** [hoare P m Q]: from a state in which [P] holds, if [m] returns [a] it
    does so in a state in which [Q a] holds. *)
Definition hoare {A} (P : State -> Prop) (m : M A) (Q : A -> State -> Prop) : Prop :=
  forall s, P s ->
    match (m s).1 with
    | Returned a => Q a (m s).2
    | Thrown _ => True
    end.

(** The write [w] stores what the engine made of the bytes that [file] held
    in [d0]. *)
Definition write_of (host : Host) (d0 : gmap string bytes) (file : Uri)
    (w : Uri * bytes) : Prop :=
  w.1 = file /\
  exists in_data,
    d0 !! fsPath file = Some in_data /\
    api_optimise host in_data 1 vscOxipng.safe = inr w.2.

(** What one command writes: the results of the engine and nothing else,
    each to the file read last. *)
Definition writes_engine_results (l : list step) : Prop :=
  map snd (writes l) = engine_results l /\ writes_to_last_read None l.

(** * Properties *)

(** ** Integers in binary64 *)

Lemma digits2_size p : digits2_pos p = Pos.size p.
Proof. induction p; cbn; congruence. Qed.

Lemma digits_bounds p :
  2 ^ (Zpos (digits2_pos p) - 1) <= Zpos p < 2 ^ Zpos (digits2_pos p).
Proof.
  induction p as [p IH|p IH|]; cbn [digits2_pos].
  - rewrite Pos2Z.inj_succ, Z.pow_succ_r by lia.
    replace (Z.succ (Zpos (digits2_pos p)) - 1) with (Z.succ (Zpos (digits2_pos p) - 1)) by lia.
    rewrite Z.pow_succ_r by lia. lia.
  - rewrite Pos2Z.inj_succ, Z.pow_succ_r by lia.
    replace (Z.succ (Zpos (digits2_pos p)) - 1) with (Z.succ (Zpos (digits2_pos p) - 1)) by lia.
    rewrite Z.pow_succ_r by lia. lia.
  - cbn. lia.
Qed.

Lemma digits_unique p d :
  2 ^ (d - 1) <= Zpos p < 2 ^ d -> Zpos (digits2_pos p) = d.
Proof.
  intros [Hlo Hhi]. pose proof (digits_bounds p) as [Hlo' Hhi'].
  assert (Hd : 0 < d).
  { destruct (Z.lt_trichotomy d 0) as [H|[H|H]]; [| |exact H].
    - rewrite Z.pow_neg_r in Hhi by lia. lia.
    - subst d. cbn in Hhi. lia. }
  destruct (Z.lt_trichotomy (Zpos (digits2_pos p)) d) as [H|[H|H]]; [|exact H|].
  - assert (2 ^ Zpos (digits2_pos p) <= 2 ^ (d - 1)) by (apply Z.pow_le_mono_r; lia). lia.
  - assert (2 ^ d <= 2 ^ (Zpos (digits2_pos p) - 1)) by (apply Z.pow_le_mono_r; lia). lia.
Qed.

Lemma iter_xO k : forall p, Zpos (Pos.iter xO p k) = Zpos p * 2 ^ Zpos k.
Proof.
  induction k as [|k IH] using Pos.peano_ind; intros p.
  - cbn. lia.
  - rewrite Pos.iter_succ, Pos2Z.inj_succ, Z.pow_succ_r by lia.
    rewrite Pos2Z.inj_xO, IH. ring.
Qed.

Lemma scaled_pos c k : 0 <= k -> Zpos (scaled c k) = Zpos c * 2 ^ k.
Proof.
  intros Hk. unfold scaled. rewrite Z2Pos.id; [reflexivity|].
  apply Z.mul_pos_pos; [lia | apply Z.pow_pos_nonneg; lia].
Qed.

Lemma digits_scaled c k :
  0 <= k -> Zpos (digits2_pos (scaled c k)) = Zpos (digits2_pos c) + k.
Proof.
  intros Hk. apply digits_unique. rewrite scaled_pos by exact Hk.
  pose proof (digits_bounds c) as [Hlo Hhi].
  pose proof (Pos2Z.is_pos (digits2_pos c)).
  replace (Zpos (digits2_pos c) + k - 1) with ((Zpos (digits2_pos c) - 1) + k) by lia.
  rewrite !Z.pow_add_r by lia.
  assert (0 < 2 ^ k) by (apply Z.pow_pos_nonneg; lia). nia.
Qed.

Lemma shl_align_scaled c e e' :
  e' <= e -> shl_align c e e' = (scaled c (e - e'), e').
Proof.
  intros He. unfold shl_align, scaled.
  destruct (e' - e) as [|d|d] eqn:Hd; try lia.
  - replace (e - e') with 0 by lia. replace e' with e by lia.
    rewrite Z.mul_1_r. reflexivity.
  - replace (e - e') with (Zpos d) by lia.
    rewrite <- iter_xO. reflexivity.
Qed.

(** Shifting out bits that are zero. *)
Lemma shr_1_double m :
  shr_1 {| shr_m := 2 * m; shr_r := false; shr_s := false |} =
  {| shr_m := m; shr_r := false; shr_s := false |}.
Proof. destruct m; reflexivity. Qed.

Lemma iter_shr_1_exact n : forall m,
  SpecFloat.iter_pos shr_1 n {| shr_m := m * 2 ^ Zpos n; shr_r := false; shr_s := false |} =
  {| shr_m := m; shr_r := false; shr_s := false |}.
Proof.
  induction n as [n IH|n IH|]; intros m; cbn [SpecFloat.iter_pos].
  - replace (m * 2 ^ Zpos n~1) with (2 * ((m * 2 ^ Zpos n) * 2 ^ Zpos n)).
    + rewrite shr_1_double, !IH. reflexivity.
    + replace (Zpos n~1) with (Zpos n + Zpos n + 1) by lia.
      rewrite !Z.pow_add_r by lia. ring.
  - replace (m * 2 ^ Zpos n~0) with ((m * 2 ^ Zpos n) * 2 ^ Zpos n).
    + rewrite !IH. reflexivity.
    + replace (Zpos n~0) with (Zpos n + Zpos n) by lia.
      rewrite !Z.pow_add_r by lia. ring.
  - rewrite Z.pow_1_r, Z.mul_comm. apply shr_1_double.
Qed.

Lemma fexp_small d : -1021 <= d -> fexp prec emax d = d - 53.
Proof. intros H. unfold fexp, emin, prec, emax. lia. Qed.

(** A mantissa of exactly 53 digits is left as it is. *)
Lemma binary_round_aux_53 m e :
  Zpos (digits2_pos m) = 53 -> -1074 <= e <= 971 ->
  binary_round_aux prec emax false (Zpos m) e loc_Exact = S754_finite false m e.
Proof.
  intros Hd He. unfold binary_round_aux, shr_fexp. cbn [Zdigits2 shr_record_of_loc].
  rewrite Hd, fexp_small by lia.
  replace (53 + e - 53 - e) with 0 by lia. cbn [shr shr_m loc_of_shr_record round_nearest_even Zdigits2 shr_record_of_loc].
  rewrite Hd, fexp_small by lia.
  replace (53 + e - 53 - e) with 0 by lia. cbn [shr shr_m].
  unfold emax, prec. destruct (Z.leb_spec e (1024 - 53)); [reflexivity | lia].
Qed.

Lemma binary_round_scaled c k :
  Zpos (digits2_pos c) <= 53 -> 0 <= k <= 1000 ->
  binary_round prec emax false (scaled c k) (- k) = normal c.
Proof.
  intros Hc Hk. pose proof (Pos2Z.is_pos (digits2_pos c)) as Hpos.
  unfold binary_round, normal.
  rewrite digits_scaled, fexp_small by lia.
  set (d := Zpos (digits2_pos c)) in *.
  replace (d + k + - k - 53) with (d - 53) by lia.
  destruct (Z.le_gt_cases (d - 53) (- k)) as [Hle|Hgt].
  - (* the mantissa is shifted to the left *)
    rewrite shl_align_scaled by exact Hle.
    assert (Heq : scaled (scaled c k) (- k - (d - 53)) = scaled c (53 - d)).
    { apply Pos2Z.inj. rewrite !scaled_pos by lia.
      rewrite <- Z.mul_assoc, <- Z.pow_add_r by lia. f_equal. f_equal. lia. }
    rewrite Heq. apply binary_round_aux_53; [|lia].
    rewrite digits_scaled by lia. fold d. lia.
  - (* the mantissa is shifted to the right, and only zeros are shifted out *)
    unfold shl_align.
    destruct (d - 53 - - k) as [|n|n] eqn:Hn; try lia.
    unfold binary_round_aux, shr_fexp. cbn [Zdigits2 shr_record_of_loc].
    rewrite digits_scaled, fexp_small by lia. fold d.
    replace (d + k + - k - 53 - - k) with (Zpos n) by lia.
    cbn [shr].
    assert (Hm : Zpos (scaled c k) = Zpos (scaled c (53 - d)) * 2 ^ Zpos n).
    { rewrite !scaled_pos by lia. rewrite <- Z.mul_assoc, <- Z.pow_add_r by lia.
      f_equal. f_equal. lia. }
    rewrite Hm, iter_shr_1_exact.
    cbn [shr_m loc_of_shr_record round_nearest_even Zdigits2 shr_record_of_loc].
    rewrite digits_scaled, fexp_small by lia. fold d.
    replace (d + (53 - d) + (- k + Zpos n) - 53 - (- k + Zpos n)) with 0 by lia.
    cbn [shr shr_m]. replace (- k + Zpos n) with (d - 53) by lia.
    unfold emax, prec. destruct (Z.leb_spec (d - 53) (1024 - 53)); [reflexivity | lia].
Qed.

Lemma digits_le_53 c : Zpos c < 2 ^ 53 -> Zpos (digits2_pos c) <= 53.
Proof.
  intros Hc. pose proof (digits_bounds c) as [Hlo _].
  destruct (Z.le_gt_cases (Zpos (digits2_pos c)) 53) as [H|H]; [exact H|].
  assert (2 ^ 53 <= 2 ^ (Zpos (digits2_pos c) - 1)) by (apply Z.pow_le_mono_r; lia).
  lia.
Qed.

Lemma scaled_0 c : scaled c 0 = c.
Proof. unfold scaled. rewrite Z.pow_0_r, Z.mul_1_r. reflexivity. Qed.

Lemma of_Z_pos c : Zpos c < 2 ^ 53 -> of_Z (Zpos c) = normal c.
Proof.
  intros Hc. unfold of_Z. cbn [binary_normalize].
  rewrite <- (scaled_0 c) at 1. change 0 with (- 0).
  apply binary_round_scaled; [apply digits_le_53, Hc | lia].
Qed.

(** The mantissa of [normal c], aligned to an exponent that is not above
    its own. *)
Lemma normal_aligned c ez :
  Zpos (digits2_pos c) <= 53 -> ez <= Zpos (digits2_pos c) - 53 ->
  Zpos (shl_align (scaled c (53 - Zpos (digits2_pos c)))
          (Zpos (digits2_pos c) - 53) ez).1 = Zpos c * 2 ^ (- ez).
Proof.
  intros Hc Hez. rewrite shl_align_scaled by exact Hez. cbn [fst].
  rewrite !scaled_pos by lia. rewrite <- Z.mul_assoc, <- Z.pow_add_r by lia.
  f_equal. f_equal. lia.
Qed.

Lemma add_normal a b :
  Zpos a + Zpos b < 2 ^ 53 -> add (normal a) (normal b) = normal (a + b).
Proof.
  intros Hab.
  assert (Ha : Zpos (digits2_pos a) <= 53) by (apply digits_le_53; lia).
  assert (Hb : Zpos (digits2_pos b) <= 53) by (apply digits_le_53; lia).
  pose proof (Pos2Z.is_pos (digits2_pos a)). pose proof (Pos2Z.is_pos (digits2_pos b)).
  unfold add, normal at 1 2. cbn [SFadd cond_Zopp].
  set (ez := Z.min (Zpos (digits2_pos a) - 53) (Zpos (digits2_pos b) - 53)).
  rewrite !normal_aligned by (unfold ez; lia).
  rewrite <- Z.mul_add_distr_r, <- Pos2Z.inj_add.
  rewrite <- (scaled_pos (a + b) (- ez)) by (unfold ez; lia).
  cbn [binary_normalize]. rewrite <- (Z.opp_involutive ez) at 2.
  apply binary_round_scaled; [apply digits_le_53; lia | unfold ez; lia].
Qed.

Lemma sub_normal a b :
  Zpos b < Zpos a < 2 ^ 53 -> sub (normal a) (normal b) = normal (a - b).
Proof.
  intros Hab.
  assert (Ha : Zpos (digits2_pos a) <= 53) by (apply digits_le_53; lia).
  assert (Hb : Zpos (digits2_pos b) <= 53) by (apply digits_le_53; lia).
  pose proof (Pos2Z.is_pos (digits2_pos a)). pose proof (Pos2Z.is_pos (digits2_pos b)).
  unfold sub, normal at 1 2. cbn [SFsub cond_Zopp].
  set (ez := Z.min (Zpos (digits2_pos a) - 53) (Zpos (digits2_pos b) - 53)).
  rewrite !normal_aligned by (unfold ez; lia).
  rewrite <- Z.mul_sub_distr_r, <- Pos2Z.inj_sub by lia.
  rewrite <- (scaled_pos (a - b) (- ez)) by (unfold ez; lia).
  cbn [binary_normalize]. rewrite <- (Z.opp_involutive ez) at 2.
  apply binary_round_scaled; [apply digits_le_53; rewrite Pos2Z.inj_sub; lia | unfold ez; lia].
Qed.

Lemma sub_normal_same a : Zpos a < 2 ^ 53 -> sub (normal a) (normal a) = of_Z 0.
Proof.
  intros Ha. unfold sub, normal. cbn [SFsub cond_Zopp].
  rewrite Z.sub_diag. reflexivity.
Qed.

Lemma add_of_Z a b :
  0 <= a -> 0 <= b -> a + b < 2 ^ 53 -> add (of_Z a) (of_Z b) = of_Z (a + b).
Proof.
  intros Ha Hb Hab. destruct a as [|a|a], b as [|b|b]; try lia; try reflexivity.
  - rewrite Z.add_0_l. unfold add. rewrite of_Z_pos by lia. reflexivity.
  - rewrite Z.add_0_r. unfold add. rewrite of_Z_pos by lia. reflexivity.
  - rewrite !of_Z_pos by lia. rewrite <- Pos2Z.inj_add, of_Z_pos by (rewrite Pos2Z.inj_add; lia).
    apply add_normal, Hab.
Qed.

Lemma sub_of_Z a b :
  0 <= b <= a -> a < 2 ^ 53 -> sub (of_Z a) (of_Z b) = of_Z (a - b).
Proof.
  intros Hb Ha. destruct a as [|a|a], b as [|b|b]; try lia; try reflexivity.
  - rewrite Z.sub_0_r. unfold sub. rewrite of_Z_pos by lia. reflexivity.
  - rewrite !of_Z_pos by lia.
    destruct (Z.eq_dec (Zpos a) (Zpos b)) as [[= ->]|Hne].
    + rewrite Z.sub_diag. apply sub_normal_same. lia.
    + rewrite <- Pos2Z.inj_sub, of_Z_pos by (try rewrite Pos2Z.inj_sub; lia).
      apply sub_normal. lia.
Qed.

Lemma scaled_compare a b k : 0 <= k -> (scaled a k ?= scaled b k)%positive = (a ?= b)%positive.
Proof.
  intros Hk. assert (0 < 2 ^ k) by (apply Z.pow_pos_nonneg; lia).
  unfold scaled. rewrite !Z2Pos.inj_mul, !Pos2Z.id by lia.
  apply Pos.mul_compare_mono_r.
Qed.

Lemma ge_of_Z a b :
  exact_integer a -> exact_integer b -> ge (of_Z a) (of_Z b) = (b <=? a).
Proof.
  unfold exact_integer. intros Ha Hb.
  destruct a as [|a|a], b as [|b|b]; try lia; try reflexivity.
  - unfold ge. rewrite of_Z_pos by lia. reflexivity.
  - unfold ge. rewrite of_Z_pos by lia. reflexivity.
  - unfold ge. rewrite !of_Z_pos by lia. unfold normal, SFleb, SFcompare.
    pose proof (digits_bounds a) as [Hal Hah]. pose proof (digits_bounds b) as [Hbl Hbh].
    pose proof (digits_le_53 a ltac:(lia)). pose proof (digits_le_53 b ltac:(lia)).
    destruct (Z.compare_spec (Zpos (digits2_pos b) - 53) (Zpos (digits2_pos a) - 53)) as [He|He|He].
    + replace (Zpos (digits2_pos b)) with (Zpos (digits2_pos a)) by lia.
      rewrite Pos.compare_cont_spec, scaled_compare by lia. cbn [Pos.switch_Eq].
      rewrite Pos2Z.inj_compare. unfold Z.leb.
      destruct (Zpos b ?= Zpos a); reflexivity.
    + assert (2 ^ Zpos (digits2_pos b) <= 2 ^ (Zpos (digits2_pos a) - 1))
        by (apply Z.pow_le_mono_r; lia).
      symmetry. apply Z.leb_le. lia.
    + assert (2 ^ Zpos (digits2_pos a) <= 2 ^ (Zpos (digits2_pos b) - 1))
        by (apply Z.pow_le_mono_r; lia).
      symmetry. apply Z.leb_gt. lia.
Qed.

(** ** Rounding in general: the magnitude grows by one at most *)

Lemma shr_1_m r : 0 <= shr_m r -> shr_m (shr_1 r) = Z.div2 (shr_m r).
Proof. destruct r as [[|[p|p|]|p] b s]; cbn; intros H; try reflexivity; lia. Qed.

Lemma iter_shr_1_m n : forall r,
  0 <= shr_m r -> shr_m (SpecFloat.iter_pos shr_1 n r) = shr_m r / 2 ^ Zpos n.
Proof.
  assert (Hstep : forall r, 0 <= shr_m r -> 0 <= shr_m (shr_1 r)).
  { intros r Hr. rewrite shr_1_m, Z.div2_div by exact Hr. apply Z.div_pos; lia. }
  assert (Hpos : forall k r, 0 <= shr_m r -> 0 <= shr_m r / 2 ^ Zpos k).
  { intros k r Hr. apply Z.div_pos; [exact Hr | apply Z.pow_pos_nonneg; lia]. }
  induction n as [n IH|n IH|]; intros r Hr; cbn [SpecFloat.iter_pos].
  - rewrite IH, IH, shr_1_m, Z.div2_div; auto.
    + rewrite !Z.div_div by (try apply Z.pow_pos_nonneg; lia). f_equal.
      replace (Zpos n~1) with (1 + Zpos n + Zpos n) by lia.
      rewrite !Z.pow_add_r by lia. ring.
    + rewrite IH by auto. apply Hpos. auto.
  - rewrite IH, IH; auto.
    + rewrite !Z.div_div by (try apply Z.pow_pos_nonneg; lia). f_equal.
      replace (Zpos n~0) with (Zpos n + Zpos n) by lia.
      rewrite !Z.pow_add_r by lia. ring.
    + rewrite IH by auto. apply Hpos. auto.
  - rewrite shr_1_m, Z.div2_div by exact Hr. reflexivity.
Qed.

Lemma loc_of_record_of_loc m l : loc_of_shr_record (shr_record_of_loc m l) = l.
Proof. destruct l as [|[]]; reflexivity. Qed.

Lemma round_nearest_even_bounds m l :
  m <= round_nearest_even m l <= m + 1.
Proof. destruct l as [|[]]; cbn; try destruct (Z.even m); lia. Qed.

Lemma Zdigits2_bounds m :
  0 < m -> 2 ^ (Zdigits2 m - 1) <= m < 2 ^ Zdigits2 m.
Proof. destruct m as [|p|p]; try lia. intros _. apply digits_bounds. Qed.

Lemma Zdigits2_unique m d : 2 ^ (d - 1) <= m < 2 ^ d -> 0 < m -> Zdigits2 m = d.
Proof. destruct m as [|p|p]; try lia. intros H _. apply digits_unique, H. Qed.

(** The second pass of [binary_round_aux], on a mantissa of at most 53
    digits, or on 2^53. *)
Lemma shr_fexp_settled m e :
  0 < m < 2 ^ 53 -> -1074 <= e ->
  shr_fexp prec emax m e loc_Exact =
    ({| shr_m := m; shr_r := false; shr_s := false |}, e).
Proof.
  intros Hm He. unfold shr_fexp. cbn [shr_record_of_loc].
  pose proof (Zdigits2_bounds m ltac:(lia)) as [Hlo Hhi].
  assert (Hd : Zdigits2 m <= 53).
  { destruct (Z.le_gt_cases (Zdigits2 m) 53) as [H|H]; [exact H|].
    assert (2 ^ 53 <= 2 ^ (Zdigits2 m - 1)) by (apply Z.pow_le_mono_r; lia). lia. }
  unfold fexp, emin, prec, emax, shr.
  destruct (Z.max (Zdigits2 m + e - 53) (3 - 1024 - 53) - e) eqn:Hn; try reflexivity.
  lia.
Qed.

Lemma shr_fexp_carry e :
  -1074 <= e ->
  shr_fexp prec emax (2 ^ 53) e loc_Exact =
    ({| shr_m := 2 ^ 52; shr_r := false; shr_s := false |}, e + 1).
Proof.
  intros He. unfold shr_fexp. change (Zdigits2 (2 ^ 53)) with 54.
  unfold fexp, emin, prec, emax.
  replace (Z.max (54 + e - 53) (3 - 1024 - 53) - e) with 1 by lia.
  reflexivity.
Qed.

(** [binary_round_aux] on a mantissa [mx] of [d] digits, in the range where
    the result is a normal number: the result is finite, its exponent is
    not below [ex], and its magnitude is at most one more than [d + ex]. *)
Lemma binary_round_aux_magnitude mx ex lx :
  0 < mx -> -1021 <= Zdigits2 mx + ex -> Zdigits2 mx + ex <= 1023 -> ex <= 970 ->
  exists m e,
    binary_round_aux prec emax false mx ex lx = S754_finite false m e /\
    ex <= e /\ Zpos (digits2_pos m) + e <= Zdigits2 mx + ex + 1.
Proof.
  intros Hmx Hlo Hhi Hex.
  pose proof (Zdigits2_bounds mx Hmx) as [Hdl Hdh].
  remember (Zdigits2 mx) as d eqn:Hdeq.
  assert (Hd : 0 < d).
  { destruct (Z.le_gt_cases d 0) as [H|H]; [|exact H].
    assert (2 ^ d <= 2 ^ 0) by (apply Z.pow_le_mono_r; lia). cbn in *. lia. }
  (* the first pass leaves a mantissa [m0] of at most 53 digits *)
  assert (Hfirst : exists m0 e0 l0,
    shr_fexp prec emax mx ex lx = (shr_record_of_loc m0 l0, e0) /\
    0 < m0 < 2 ^ 53 /\ ex <= e0 /\ -1074 <= e0 <= 970 /\
    Zdigits2 m0 + e0 <= d + ex /\ (d <= 53 -> m0 < 2 ^ d)).
  { unfold shr_fexp. rewrite <- Hdeq, fexp_small by lia.
    destruct (d + ex - 53 - ex) as [|n|n] eqn:Hn.
    - exists mx, ex, lx. cbn [shr]. assert (Hd53 : d = 53) by lia.
      repeat split; try lia; try (intros _; exact Hdh). rewrite Hd53 in Hdh. exact Hdh.
    - cbn [shr]. set (r := SpecFloat.iter_pos shr_1 n (shr_record_of_loc mx lx)).
      assert (Hr : shr_m r = mx / 2 ^ Zpos n).
      { unfold r. rewrite iter_shr_1_m; destruct lx as [|[]]; cbn; lia. }
      assert (Hpow : 2 ^ d = 2 ^ 53 * 2 ^ Zpos n)
        by (rewrite <- Z.pow_add_r by lia; f_equal; lia).
      assert (Hpow' : 2 ^ (d - 1) = 2 ^ 52 * 2 ^ Zpos n)
        by (rewrite <- Z.pow_add_r by lia; f_equal; lia).
      assert (H2n : 0 < 2 ^ Zpos n) by (apply Z.pow_pos_nonneg; lia).
      assert (Hm0 : 2 ^ 52 <= mx / 2 ^ Zpos n < 2 ^ 53).
      { split.
        - apply Z.div_le_lower_bound; [exact H2n | lia].
        - apply Z.div_lt_upper_bound; [exact H2n | lia]. }
      exists (mx / 2 ^ Zpos n), (ex + Zpos n), (loc_of_shr_record r).
      split; [|repeat split; try lia].
      + f_equal. rewrite <- Hr. destruct r as [m [|] [|]]; reflexivity.
      + rewrite (Zdigits2_unique (mx / 2 ^ Zpos n) 53) by lia. lia.
    - exists mx, ex, lx. cbn [shr].
      assert (2 ^ d <= 2 ^ 53) by (apply Z.pow_le_mono_r; lia).
      repeat split; try lia; try (intros _; exact Hdh). }
  destruct Hfirst as (m0 & e0 & l0 & Hshr & Hm0 & He0 & He0' & Hmag & Hsmall).
  unfold binary_round_aux. rewrite Hshr.
  replace (shr_m (shr_record_of_loc m0 l0)) with m0 by (destruct l0 as [|[]]; reflexivity).
  rewrite loc_of_record_of_loc.
  pose proof (round_nearest_even_bounds m0 l0) as Hround.
  set (m1 := round_nearest_even m0 l0) in *.
  destruct (Z.eq_dec m1 (2 ^ 53)) as [Hcarry|Hcarry].
  - (* the rounding carries into the next binade *)
    rewrite Hcarry, shr_fexp_carry by lia. cbn [shr_m].
    change (2 ^ 52) with (Zpos (Z.to_pos (2 ^ 52))).
    unfold emax, prec. destruct (Z.leb_spec (e0 + 1) (1024 - 53)); [|lia].
    eexists _, _. split; [reflexivity|]. split; [lia|].
    change (Zpos (digits2_pos (Z.to_pos (2 ^ 52)))) with 53.
    assert (Hd0 : Zdigits2 m0 = 53).
    { apply Zdigits2_unique; [|lia]. change (2 ^ (53 - 1)) with (2 ^ 52).
      assert (m0 = 2 ^ 53 - 1) by lia. subst m0. cbn. lia. }
    lia.
  - rewrite shr_fexp_settled by lia. cbn [shr_m].
    destruct m1 as [|p1|p1] eqn:Hp1; try lia.
    unfold emax, prec. destruct (Z.leb_spec e0 (1024 - 53)); [|lia].
    exists p1, e0. split; [reflexivity|]. split; [lia|].
    change (Zpos (digits2_pos p1)) with (Zdigits2 (Zpos p1)).
    destruct (Z.eq_dec (Zpos p1) m0) as [->|Hne]; [lia|].
    assert (Hp : Zpos p1 = m0 + 1) by lia.
    pose proof (Zdigits2_bounds m0 ltac:(lia)) as [Hl0 Hh0].
    destruct (Z.eq_dec (m0 + 1) (2 ^ Zdigits2 m0)) as [Hfull|Hfull].
    + (* [m0 + 1] is a power of two: one digit more *)
      rewrite (Zdigits2_unique (Zpos p1) (Zdigits2 m0 + 1)); [| |lia].
      * assert (Hdm : Zdigits2 m0 + e0 <= d + ex) by exact Hmag.
        destruct (Z.le_gt_cases d 53) as [Hd53|Hd53]; [|lia].
        lia.
      * replace (Zdigits2 m0 + 1 - 1) with (Zdigits2 m0) by lia.
        rewrite Z.pow_add_r, Z.pow_1_r by (try lia; destruct m0; try lia; cbn; lia). lia.
    + rewrite (Zdigits2_unique (Zpos p1) (Zdigits2 m0)); lia.
Qed.

(** ** The range of the percentage *)

Lemma normal_digits c :
  Zpos (digits2_pos c) <= 53 ->
  Zpos (digits2_pos (scaled c (53 - Zpos (digits2_pos c)))) = 53.
Proof. intros Hc. rewrite digits_scaled by lia. lia. Qed.

Lemma normal_mantissa c :
  Zpos (digits2_pos c) <= 53 ->
  2 ^ 52 <= Zpos (scaled c (53 - Zpos (digits2_pos c))) < 2 ^ 53.
Proof.
  intros Hc. pose proof (digits_bounds (scaled c (53 - Zpos (digits2_pos c)))) as Hb.
  rewrite normal_digits in Hb by exact Hc. exact Hb.
Qed.

Lemma div_normal_magnitude p q :
  Zpos p < 2 ^ 53 -> Zpos q < 2 ^ 53 ->
  exists m e,
    div (normal p) (normal q) = S754_finite false m e /\
    -105 <= e /\ Zpos (digits2_pos m) + e <= 54.
Proof.
  intros Hp Hq.
  pose proof (digits_le_53 p Hp) as Hdp. pose proof (digits_le_53 q Hq) as Hdq.
  pose proof (Pos2Z.is_pos (digits2_pos p)). pose proof (Pos2Z.is_pos (digits2_pos q)).
  pose proof (normal_mantissa p Hdp) as Hmp. pose proof (normal_mantissa q Hdq) as Hmq.
  unfold div, normal. cbn [SFdiv xorb]. unfold SFdiv_core_binary.
  cbn [Zdigits2]. rewrite !normal_digits by assumption.
  set (mp := scaled p (53 - Zpos (digits2_pos p))) in *.
  set (mq := scaled q (53 - Zpos (digits2_pos q))) in *.
  set (dp := Zpos (digits2_pos p)) in *. set (dq := Zpos (digits2_pos q)) in *.
  rewrite fexp_small by lia.
  replace (Z.min (53 + (dp - 53) - (53 + (dq - 53)) - 53) (dp - 53 - (dq - 53)))
    with (dp - dq - 53) by lia.
  replace (dp - 53 - (dq - 53) - (dp - dq - 53)) with 53 by lia.
  rewrite Z.shiftl_mul_pow2 by lia.
  destruct (Z.div_eucl (Zpos mp * 2 ^ 53) (Zpos mq)) as [q0 r0] eqn:Hdiv.
  assert (Hq0 : q0 = Zpos mp * 2 ^ 53 / Zpos mq) by (unfold Z.div; rewrite Hdiv; reflexivity).
  assert (Hrange : 2 ^ 52 <= q0 < 2 ^ 54).
  { rewrite Hq0. split.
    - apply Z.div_le_lower_bound; [lia|]. nia.
    - apply Z.div_lt_upper_bound; [lia|]. nia. }
  assert (Hdq0 : 53 <= Zdigits2 q0 <= 54).
  { pose proof (Zdigits2_bounds q0 ltac:(lia)) as [Hl Hh]. split.
    - destruct (Z.le_gt_cases 53 (Zdigits2 q0)) as [H'|H']; [exact H'|].
      assert (2 ^ Zdigits2 q0 <= 2 ^ 52) by (apply Z.pow_le_mono_r; lia). lia.
    - destruct (Z.le_gt_cases (Zdigits2 q0) 54) as [H'|H']; [exact H'|].
      assert (2 ^ 54 <= 2 ^ (Zdigits2 q0 - 1)) by (apply Z.pow_le_mono_r; lia). lia. }
  destruct (binary_round_aux_magnitude q0 (dp - dq - 53) (new_location (Zpos mq) r0))
    as (m & e & Hres & He & Hmag); try lia.
  exists m, e. split; [exact Hres | lia].
Qed.

Lemma hundred_normal : hundred = S754_finite false 7036874417766400 (-46).
Proof. reflexivity. Qed.

Lemma mul_hundred_magnitude m e :
  -105 <= e -> Zpos (digits2_pos m) + e <= 54 ->
  exists m' e',
    mul (S754_finite false m e) hundred = S754_finite false m' e' /\
    Zpos (digits2_pos m') + e' <= 62.
Proof.
  intros He Hmag. pose proof (Pos2Z.is_pos (digits2_pos m)) as Hd.
  rewrite hundred_normal. unfold mul. cbn [SFmul xorb].
  pose proof (digits_bounds m) as [Hl Hh].
  set (M := Zpos (m * 7036874417766400)).
  assert (HM : M = Zpos m * 7036874417766400) by reflexivity.
  assert (HdM : Zpos (digits2_pos m) + 52 <= Zdigits2 M <= Zpos (digits2_pos m) + 53).
  { pose proof (Zdigits2_bounds M ltac:(lia)) as [HMl HMh].
    assert (H52 : 2 ^ (Zpos (digits2_pos m) - 1 + 52) = 2 ^ (Zpos (digits2_pos m) - 1) * 2 ^ 52)
      by (apply Z.pow_add_r; lia).
    assert (H53 : 2 ^ (Zpos (digits2_pos m) + 53) = 2 ^ Zpos (digits2_pos m) * 2 ^ 53)
      by (apply Z.pow_add_r; lia).
    split.
    - destruct (Z.le_gt_cases (Zpos (digits2_pos m) + 52) (Zdigits2 M)) as [H'|H']; [exact H'|].
      assert (2 ^ Zdigits2 M <= 2 ^ (Zpos (digits2_pos m) - 1 + 52))
        by (apply Z.pow_le_mono_r; lia).
      change (2 ^ 52) with 4503599627370496 in H52. nia.
    - destruct (Z.le_gt_cases (Zdigits2 M) (Zpos (digits2_pos m) + 53)) as [H'|H']; [exact H'|].
      assert (2 ^ (Zpos (digits2_pos m) + 53) <= 2 ^ (Zdigits2 M - 1))
        by (apply Z.pow_le_mono_r; lia).
      change (2 ^ 53) with 9007199254740992 in H53. nia. }
  destruct (binary_round_aux_magnitude M (e + -46) loc_Exact)
    as (m' & e' & Hres & _ & Hmag'); try lia.
  exists m', e'. split; [exact Hres | lia].
Qed.

Lemma below_1e21 m e :
  Zpos (digits2_pos m) + e <= 62 -> le_scaled m e (10 ^ 21) = false.
Proof.
  intros Hmag. pose proof (digits_bounds m) as [_ Hh].
  pose proof (Pos2Z.is_pos (digits2_pos m)) as Hd.
  unfold le_scaled. destruct (Z.leb_spec 0 e) as [He|He]; apply Z.leb_gt.
  - assert (Zpos m * 2 ^ e < 2 ^ (Zpos (digits2_pos m) + e)).
    { rewrite Z.pow_add_r by lia. apply Z.mul_lt_mono_pos_r; [apply Z.pow_pos_nonneg|]; lia. }
    assert (2 ^ (Zpos (digits2_pos m) + e) <= 2 ^ 62) by (apply Z.pow_le_mono_r; lia).
    change (2 ^ 62) with 4611686018427387904 in *.
    change (10 ^ 21) with 1000000000000000000000. lia.
  - assert (H1 : 2 ^ Zpos (digits2_pos m) <= 2 ^ (62 + - e)) by (apply Z.pow_le_mono_r; lia).
    rewrite Z.pow_add_r in H1 by lia.
    assert (0 < 2 ^ (- e)) by (apply Z.pow_pos_nonneg; lia).
    change (2 ^ 62) with 4611686018427387904 in *.
    change (10 ^ 21) with 1000000000000000000000. nia.
Qed.

(** The percentage of two sizes is zero, or positive and below 10^21. *)
Lemma percentage_range p q :
  exact_integer p -> exact_integer q -> 0 < q ->
  mul (div (of_Z p) (of_Z q)) hundred = S754_zero false \/
  exists m e,
    mul (div (of_Z p) (of_Z q)) hundred = S754_finite false m e /\
    le_scaled m e (10 ^ 21) = false.
Proof.
  unfold exact_integer. intros Hp Hq Hq0.
  destruct q as [|q|q]; try lia. rewrite (of_Z_pos q) by lia.
  destruct p as [|p|p]; try lia.
  - left. reflexivity.
  - right. rewrite (of_Z_pos p) by lia.
    destruct (div_normal_magnitude p q) as (m & e & -> & He & Hmag); try lia.
    destruct (mul_hundred_magnitude m e He Hmag) as (m' & e' & -> & Hmag').
    exists m', e'. split; [reflexivity | apply below_1e21, Hmag'].
Qed.

(** ** Two decimal places *)

Open Scope string_scope.
Open Scope Z_scope.

Lemma append_cons x (a b : string) : String x a ++ b = String x (a ++ b).
Proof. reflexivity. Qed.

Lemma append_assoc (a b c : string) : (a ++ b) ++ c = a ++ (b ++ c).
Proof.
  induction a as [|x a IH]; [reflexivity|]. rewrite !append_cons, IH. reflexivity.
Qed.

Lemma length_append (a b : string) :
  String.length (a ++ b) = (String.length a + String.length b)%nat.
Proof.
  induction a as [|x a IH]; [reflexivity|]. rewrite append_cons. cbn. rewrite IH. reflexivity.
Qed.

Lemma substring_all (a : string) : substring 0 (String.length a) a = a.
Proof. induction a as [|x a IH]; [reflexivity|]. cbn. rewrite IH. reflexivity. Qed.

Lemma substring_prefix (a b : string) : substring 0 (String.length a) (a ++ b) = a.
Proof.
  induction a as [|x a IH]; [destruct b; reflexivity|].
  rewrite append_cons. cbn. rewrite IH. reflexivity.
Qed.

Lemma substring_suffix (a b : string) :
  substring (String.length a) (String.length b) (a ++ b) = b.
Proof.
  induction a as [|x a IH]; [apply substring_all|]. rewrite append_cons. exact IH.
Qed.

Lemma pretty_N_go_acc x : forall s, pretty_N_go x s = pretty_N_go x "" ++ s.
Proof.
  induction (N.lt_wf_0 x) as [x _ IH]. intros s.
  destruct (N.eq_dec x 0%N) as [->|Hx]; [reflexivity|].
  rewrite (pretty_N_go_step x s), (pretty_N_go_step x "") by lia.
  rewrite (IH (x `div` 10)%N) by (apply N.div_lt; lia).
  rewrite (IH (x `div` 10)%N ltac:(apply N.div_lt; lia) (String _ "")).
  rewrite append_assoc. reflexivity.
Qed.

Lemma pretty_N_small (x : N) : (x < 10)%N -> pretty x = String (pretty_N_char x) "".
Proof.
  intros Hx. unfold pretty, pretty_N. destruct (decide (x = 0%N)) as [->|Hne]; [reflexivity|].
  rewrite pretty_N_go_step by lia.
  rewrite N.div_small, N.mod_small by lia. reflexivity.
Qed.

Lemma pretty_N_snoc (x : N) :
  (10 <= x)%N ->
  pretty x = pretty (x `div` 10)%N ++ String (pretty_N_char (x `mod` 10)) "".
Proof.
  intros Hx. unfold pretty, pretty_N.
  destruct (decide (x = 0%N)) as [->|_]; [lia|].
  assert (0 < x `div` 10)%N by (apply N.div_str_pos; lia).
  destruct (decide (x `div` 10 = 0)%N) as [H0|_]; [lia|].
  rewrite pretty_N_go_step by lia. apply pretty_N_go_acc.
Qed.

Lemma pretty_N_length (x : N) : (1 <= String.length (pretty x))%nat.
Proof.
  destruct (N.lt_ge_cases x 10) as [Hx|Hx].
  - rewrite pretty_N_small by exact Hx. cbn. lia.
  - rewrite pretty_N_snoc, length_append by exact Hx. cbn. lia.
Qed.

Lemma fixed_digits_two n : 0 <= n -> fixed_digits n 2 = two_decimals n.
Proof.
  intros Hn. unfold fixed_digits, two_decimals, digit.
  rewrite !Z2N.inj_mod, !Z2N.inj_div by (try apply Z.div_pos; lia).
  change (Z.to_N 100) with 100%N. change (Z.to_N 10) with 10%N.
  set (x := Z.to_N n).
  destruct (N.lt_ge_cases x 10) as [H10|H10].
  - rewrite (pretty_N_small x H10).
    rewrite !N.div_small, (N.mod_small x), (N.mod_small 0) by lia. reflexivity.
  - rewrite (pretty_N_snoc x H10).
    destruct (N.lt_ge_cases x 100) as [H100|H100].
    + assert (Hq : (x `div` 10 < 10)%N) by (apply N.Div0.div_lt_upper_bound; lia).
      rewrite (pretty_N_small _ Hq), (N.div_small x 100), (N.mod_small (x `div` 10)) by lia.
      reflexivity.
    + assert (Hq : (10 <= x `div` 10)%N) by (apply N.div_le_lower_bound; lia).
      rewrite (pretty_N_snoc _ Hq), N.Div0.div_div. change (10 * 10)%N with 100%N.
      set (a := pretty (x `div` 100)%N).
      pose proof (pretty_N_length (x `div` 100)%N) as Ha. fold a in Ha.
      rewrite append_assoc, append_cons. change ("" ++ ?t) with t.
      rewrite length_append. cbn [String.length].
      replace (String.length a + 2 <=? 2)%nat with false
        by (symmetry; apply Nat.leb_gt; lia).
      rewrite length_append. cbn [String.length].
      replace (String.length a + 2 - 2)%nat with (String.length a) by lia.
      rewrite substring_prefix.
      change 2%nat with (String.length (String (pretty_N_char ((x `div` 10) `mod` 10))
                                          (String (pretty_N_char (x `mod` 10)) ""))) at 1.
      rewrite substring_suffix. reflexivity.
Qed.

Lemma nearest_scaled_nonneg m e f : 0 <= nearest_scaled m e f.
Proof.
  unfold nearest_scaled.
  assert (0 <= 10 ^ Z.of_nat f) by (apply Z.pow_nonneg; lia).
  assert (0 <= 2 ^ e) by (apply Z.pow_nonneg; lia).
  assert (0 <= 2 ^ (- e)) by (apply Z.pow_nonneg; lia).
  assert (0 <= Zpos m * 10 ^ Z.of_nat f) by (apply Z.mul_nonneg_nonneg; lia).
  destruct (Z.leb_spec 0 e).
  - apply Z.mul_nonneg_nonneg; assumption.
  - apply Z.div_pos; [lia | apply Z.pow_pos_nonneg; lia].
Qed.

Lemma nearest_scaled_hundredth m e :
  nearest_hundredth (S754_finite false m e) (nearest_scaled m e 2).
Proof.
  unfold nearest_hundredth, nearest_scaled, value.
  change (10 ^ Z.of_nat 2) with 100.
  destruct (Z.leb_spec 0 e) as [He|He].
  - unfold Qle, Qlt. cbn. lia.
  - assert (Hk : 0 < 2 ^ (- e)) by (apply Z.pow_pos_nonneg; lia).
    replace (2 ^ (1 - e)) with (2 * 2 ^ (- e))
      by (replace (1 - e) with (1 + - e) by lia; rewrite Z.pow_add_r by lia; reflexivity).
    set (k := 2 ^ (- e)) in *.
    pose proof (Z.div_mod (2 * (Zpos m * 100) + k) (2 * k) ltac:(lia)) as Hdm.
    pose proof (Z.mod_pos_bound (2 * (Zpos m * 100) + k) (2 * k) ltac:(lia)) as Hmod.
    set (n := (2 * (Zpos m * 100) + k) / (2 * k)) in *.
    unfold Qle, Qlt. cbn. rewrite !Pos.mul_1_l, !Z2Pos.id by exact Hk.
    clearbody n k. nia.
Qed.

Lemma toFixed_zero s : toFixed (S754_zero s) 2 = two_decimals 0.
Proof. reflexivity. Qed.

Lemma toFixed_below_1e21 m e :
  le_scaled m e (10 ^ 21) = false ->
  toFixed (S754_finite false m e) 2 = two_decimals (nearest_scaled m e 2).
Proof.
  intros H. unfold toFixed. rewrite H. change ("" ++ ?t) with t.
  apply fixed_digits_two, nearest_scaled_nonneg.
Qed.

(** The percentage of two sizes, as [toFixed] prints it. *)
Lemma percentage_two_decimals p q :
  exact_integer p -> exact_integer q -> 0 < q ->
  exists n,
    0 <= n /\
    nearest_hundredth (mul (div (of_Z p) (of_Z q)) hundred) n /\
    toFixed (mul (div (of_Z p) (of_Z q)) hundred) 2 = two_decimals n.
Proof.
  intros Hp Hq Hq0.
  destruct (percentage_range p q Hp Hq Hq0) as [->|(m & e & -> & Hlt)].
  - exists 0. split; [lia|]. split; reflexivity.
  - exists (nearest_scaled m e 2). split; [apply nearest_scaled_nonneg|]. split.
    + apply nearest_scaled_hundredth.
    + apply toFixed_below_1e21, Hlt.
Qed.

Open Scope list_scope.



(** ** The loops *)

(** Unfold the monad and the calls into the host, as far as the state allows. *)
Ltac run_cmd :=
  unfold bind, await, readFile, optimise, readDirectory, modifiedPNGs,
    showQuickPick, withProgress, showInformationMessage, showErrorMessage,
    consoleLog, report, sleep, of_result, log, ret, throw, addSavings,
    resetSavings, getSavings, writeFile;
  cbn.

Lemma bind_run {A B} (m : M A) (f : A -> M B) s :
  bind m f s =
  match m s with
  | (Returned a, s') => f a s'
  | (Thrown e, s') => (Thrown e, s')
  end.
Proof. reflexivity. Qed.

Lemma for_loop_each (body_i : nat -> M unit) (body : Uri -> M unit) rest :
  forall done s,
    (forall i s', body_i i s' = (file <- item (done ++ rest) i ;; body file) s') ->
    for_loop (length rest) (length done) body_i s = each rest body s.
Proof.
  induction rest as [|file rest IH]; intros done s Hbody; [reflexivity|].
  cbn [for_loop each length]. rewrite !bind_run, Hbody, bind_run.
  unfold item. rewrite list_lookup_middle by reflexivity. cbn.
  destruct (body file s) as [[[]|e] s1]; [|reflexivity].
  replace (S (length done)) with (length (done ++ [file])) by (rewrite length_app; cbn; lia).
  apply IH. intros i s'. rewrite Hbody, <- app_assoc. reflexivity.
Qed.

Lemma for_loop_files (body_i : nat -> M unit) (body : Uri -> M unit) files s :
  (forall i s', body_i i s' = (file <- item files i ;; body file) s') ->
  for_loop (length files) 0 body_i s = each files body s.
Proof. intros Hbody. apply (for_loop_each body_i body files [] s Hbody). Qed.

Lemma folderBody_batchFile host files count i s :
  folderBody host files count i s =
  (file <- item files i ;; batchFile host false (fileName host) count file) s.
Proof. reflexivity. Qed.

Lemma gitBody_batchFile host files count i s :
  gitBody host files count i s =
  (file <- item files i ;;
   batchFile host true (fun file => path_base host (fsPath file)) count file) s.
Proof. reflexivity. Qed.

Section Batch.

Variable host : Host.
Variable pause : bool.
Variable label : Uri -> string.
Variable count : nat.

Let steps := attempt_steps pause label count.

(** One file: the attempt that describes what happened. *)
Lemma batchFile_spec file s r s' :
  batchFile host pause label count file s = (r, s') ->
  exists a,
    attempt_file a = file /\
    r = match failure a with None => Returned tt | Some e => Thrown e end /\
    history s' = history s ++ steps a /\
    pngSavingsIn s' = add_sizes in_size (pngSavingsIn s) a /\
    pngSavingsOut s' = add_sizes out_size (pngSavingsOut s) a.
Proof.
  unfold batchFile, steps. run_cmd.
  destruct (disk s !! fsPath file) as [in_data|] eqn:Hread; cbn.
  - destruct (api_optimise host in_data 1 vscOxipng.safe) as [e|out_data] eqn:Hopt; cbn.
    + intros [= <- <-]. exists (EngineFailed file in_data e). cbn.
      rewrite <- !app_assoc. repeat split.
    + destruct pause; cbn; intros [= <- <-];
        exists (Completed file in_data out_data); cbn;
        rewrite <- !app_assoc; repeat split.
  - intros [= <- <-]. exists (ReadFailed file (read_error host file)). cbn.
    rewrite <- !app_assoc. repeat split.
Qed.

(** The whole loop: the attempts, one per file reached, in the order of
    the files. *)
Lemma each_spec files : forall s r s',
  each files (batchFile host pause label count) s = (r, s') ->
  exists atts,
    loop_result files atts r /\
    history s' = history s ++ concat (map steps atts) /\
    pngSavingsIn s' = foldl (add_sizes in_size) (pngSavingsIn s) atts /\
    pngSavingsOut s' = foldl (add_sizes out_size) (pngSavingsOut s) atts.
Proof.
  induction files as [|file files IH]; intros s r s'; cbn [each].
  - intros [= <- <-]. exists []. cbn. rewrite app_nil_r.
    repeat split. left. repeat split. constructor.
  - rewrite bind_run.
    destruct (batchFile host pause label count file s) as [r1 s1] eqn:Hfile.
    apply batchFile_spec in Hfile as (a & Hfa & Hr1 & Hh & Hin & Hout).
    destruct (failure a) as [e|] eqn:Hfail; subst r1.
    + intros [= <- <-]. exists [a]. cbn. rewrite app_nil_r.
      split; [split|auto]; [cbn; rewrite Hfa; reflexivity|].
      right. exists [], a, e. repeat split; [constructor | assumption].
    + intros Hrest. apply IH in Hrest as (atts & Hres & Hh' & Hin' & Hout').
      exists (a :: atts). cbn [map concat foldl].
      rewrite Hh', Hh, <- app_assoc, Hin', Hin, Hout', Hout.
      split; [split|auto].
      * destruct Hres as [Hfiles _]. cbn. rewrite Hfa, Hfiles. reflexivity.
      * destruct Hres as [_ [(-> & Hlen & Hall)|(done & b & e & -> & -> & Hall & Hb)]].
        -- left. repeat split; [cbn; congruence | constructor; assumption].
        -- right. exists (a :: done), b, e.
           repeat split; [constructor; assumption | assumption].
Qed.

End Batch.

(** ** A batch, from the first progress report to the summary *)

Lemma batch_spec host pause label files body s :
  (forall i s', body i s' =
     (file <- item files i ;; batchFile host pause label (length files) file) s') ->
  exists atts,
    loop_result files atts (batch host (length files) body s).1 /\
    history (batch host (length files) body s).2 =
      history s ++ batch_steps pause label (length files) atts
                     (batch host (length files) body s).1 /\
    pngSavingsIn (batch host (length files) body s).2 = total_in atts /\
    pngSavingsOut (batch host (length files) body s).2 = total_out atts.
Proof.
  intros Hbody. unfold batch, batch_steps. run_cmd.
  match goal with |- context [for_loop _ _ _ ?s0] =>
    rewrite (for_loop_files body (batchFile host pause label (length files)) files s0 Hbody);
    destruct (each files (batchFile host pause label (length files)) s0) as [r s1] eqn:Hrun
  end.
  apply each_spec in Hrun as (atts & Hres & Hh & Hin & Hout). cbn in Hh, Hin, Hout.
  exists atts. unfold summary, total_in, total_out.
  destruct r as [[]|e]; cbn; rewrite Hh, <- ?Hin, <- ?Hout, <- ?app_assoc; cbn;
    rewrite ?app_nil_r; (split; [exact Hres|]); repeat split; assumption.
Qed.

(** ** The two batch commands *)

Lemma steps_of_app {A} (m : M A) s l :
  history (m s).2 = history s ++ l -> steps_of m s = l.
Proof. intros H. unfold steps_of. rewrite H. apply drop_app_length. Qed.

Lemma folder_spec host param files s :
  readDirectoryRecursivePNGs host param = inr files ->
  exists atts,
    loop_result files atts (commandOptimiseFolder host param s).1 /\
    steps_of (commandOptimiseFolder host param) s =
      folder_steps host param files atts (commandOptimiseFolder host param s).1 /\
    pngSavingsIn (commandOptimiseFolder host param s).2 = total_in atts /\
    pngSavingsOut (commandOptimiseFolder host param s).2 = total_out atts.
Proof.
  intros Hdir.
  set (s0 := (consoleLog files (suspend host (log (ReadDirectory param (inr files)) s).2)).2).
  assert (Hrun : commandOptimiseFolder host param s =
                 batch host (length files) (folderBody host files (length files)) s0).
  { unfold commandOptimiseFolder. run_cmd. rewrite Hdir. reflexivity. }
  destruct (batch_spec host false (fileName host) files
              (folderBody host files (length files)) s0
              (folderBody_batchFile host files (length files)))
    as (atts & Hres & Hh & Hin & Hout).
  exists atts. split; [|split; [apply steps_of_app|]]; rewrite Hrun;
    [exact Hres | | split; assumption].
  rewrite Hh. unfold folder_steps. cbn. rewrite <- !app_assoc. reflexivity.
Qed.

(** The change-set command, once the repository is selected: [s1] is the
    state in which the selection ends. *)
Lemma changes_spec host git param repo files s s1 :
  gitApi host = Some git ->
  selectRepository host git param s = (Returned (Some repo), s1) ->
  gitModifiedPNGs host repo = inr files ->
  exists atts,
    loop_result files atts (commandOptimiseGitChanges host param s).1 /\
    history (commandOptimiseGitChanges host param s).2 =
      history s1 ++
      changes_steps host repo files atts (commandOptimiseGitChanges host param s).1 /\
    pngSavingsIn (commandOptimiseGitChanges host param s).2 = total_in atts /\
    pngSavingsOut (commandOptimiseGitChanges host param s).2 = total_out atts.
Proof.
  intros Hgit Hsel Hfiles.
  set (s0 := suspend host (log (GitModifiedPNGs repo (inr files)) s1).2).
  assert (Hrun : commandOptimiseGitChanges host param s =
                 batch host (length files) (gitBody host files (length files)) s0).
  { unfold commandOptimiseGitChanges. rewrite Hgit, bind_run, Hsel.
    run_cmd. rewrite Hfiles. reflexivity. }
  destruct (batch_spec host true (fun file => path_base host (fsPath file)) files
              (gitBody host files (length files)) s0
              (gitBody_batchFile host files (length files)))
    as (atts & Hres & Hh & Hin & Hout).
  exists atts. rewrite Hrun. split; [exact Hres|split; [|split; assumption]].
  rewrite Hh. unfold changes_steps. cbn. rewrite <- !app_assoc. reflexivity.
Qed.

(** ** Selecting the repository *)

Lemma suspend_idle host s :
  pending s = [] ->
  disk (suspend host s) = disk s /\ pending (suspend host s) = [] /\
  settled (suspend host s) = settled s.
Proof.
  intros Hp. unfold suspend. rewrite Hp, take_nil, drop_nil. cbn. auto.
Qed.

Lemma select_many host git r1 r2 rest s :
  repositories git = r1 :: r2 :: rest ->
  selectRepository host git None s =
    (Returned
       match quickPick host (root_paths (r1 :: r2 :: rest)) with
       | Some path =>
           if decide (path = "") then None
           else getRepository git {| fsPath := path |}
       | None => None
       end,
     suspend host
       (log (ShowQuickPick (root_paths (r1 :: r2 :: rest))
               (quickPick host (root_paths (r1 :: r2 :: rest)))) s).2).
Proof.
  intros Hrepos. unfold selectRepository, root_paths. rewrite Hrepos. run_cmd.
  destruct (quickPick host _) as [path|]; [|reflexivity].
  destruct (decide (path = "")); reflexivity.
Qed.

(** C3 (confirmed): without an explicit target the command branches on the
    number of repositories. With none it reports that no repository was
    found and stops. With exactly one it takes that repository and offers
    no choice. With more it offers the root paths of the repositories to the
    user, once, and resolves the path that was picked back to a repository
    with [getRepository]. *)
Theorem repository_selection_three_way host git s :
  gitApi host = Some git ->
  (repositories git = [] ->
     steps_of (commandOptimiseGitChanges host None) s =
       [ShowErrorMessage "No repository found"] /\
     (commandOptimiseGitChanges host None s).1 = Returned tt) /\
  (forall repo, repositories git = [repo] ->
     selectRepository host git None s = (Returned (Some repo), s) /\
     steps_of (selectRepository host git None) s = []) /\
  (forall r1 r2 rest, repositories git = r1 :: r2 :: rest ->
     steps_of (selectRepository host git None) s =
       [ShowQuickPick (root_paths (r1 :: r2 :: rest))
          (quickPick host (root_paths (r1 :: r2 :: rest)))] /\
     forall path,
       quickPick host (root_paths (r1 :: r2 :: rest)) = Some path ->
       path <> "" ->
       (selectRepository host git None s).1 =
         Returned (getRepository git {| fsPath := path |})).
Proof.
  intros Hgit. split; [|split].
  - intros Hrepos. unfold commandOptimiseGitChanges, steps_of.
    rewrite Hgit. unfold selectRepository. rewrite Hrepos. run_cmd.
    rewrite drop_app_length. auto.
  - intros repo Hrepos. unfold steps_of, selectRepository. rewrite Hrepos. cbn.
    rewrite drop_all. auto.
  - intros r1 r2 rest Hrepos. split.
    + apply steps_of_app. rewrite (select_many host git r1 r2 rest s Hrepos).
      reflexivity.
    + intros path Hpick Hpath.
      rewrite (select_many host git r1 r2 rest s Hrepos), Hpick. cbn.
      destruct (decide (path = "")); [contradiction | reflexivity].
Qed.

(** C4 (amended): when the user dismisses the choice of repository, no file
    is read or written, and the command shows the error message
    "No repository found", as it does when there is no repository. *)
Theorem cancelled_pick_reports_no_repository host git r1 r2 rest s :
  gitApi host = Some git ->
  repositories git = r1 :: r2 :: rest ->
  quickPick host (root_paths (r1 :: r2 :: rest)) = None ->
  steps_of (commandOptimiseGitChanges host None) s =
    [ShowQuickPick (root_paths (r1 :: r2 :: rest)) None;
     ShowErrorMessage "No repository found"] /\
  (commandOptimiseGitChanges host None s).1 = Returned tt /\
  Forall (fun st => touches_file st = false)
    (steps_of (commandOptimiseGitChanges host None) s) /\
  (pending s = [] ->
     disk (commandOptimiseGitChanges host None s).2 = disk s /\
     pending (commandOptimiseGitChanges host None s).2 = []).
Proof.
  intros Hgit Hrepos Hpick.
  assert (Hrun : commandOptimiseGitChanges host None s =
    showErrorMessage "No repository found"
      (suspend host (log (ShowQuickPick (root_paths (r1 :: r2 :: rest)) None) s).2)).
  { unfold commandOptimiseGitChanges.
    rewrite Hgit, bind_run, (select_many host git r1 r2 rest s Hrepos), Hpick.
    reflexivity. }
  assert (Hsteps : steps_of (commandOptimiseGitChanges host None) s =
    [ShowQuickPick (root_paths (r1 :: r2 :: rest)) None;
     ShowErrorMessage "No repository found"]).
  { apply steps_of_app. rewrite Hrun. cbn. rewrite <- app_assoc. reflexivity. }
  rewrite Hsteps, Hrun. split; [reflexivity|]. split; [reflexivity|].
  split; [repeat constructor|].
  intros Hidle. cbn. rewrite Hidle, take_nil, drop_nil. cbn. auto.
Qed.

(** ** Properties of all the steps of a command *)

Lemma closed_Forall (P : step -> Prop) : closed (Forall P).
Proof. split; [constructor | intros l1 l2 H1 H2; apply Forall_app; auto]. Qed.

Lemma emits_steps_of Q {A} (m : M A) s : emits Q m -> Q (steps_of m s).
Proof.
  intros H. destruct (H s) as (l & Hl & HQ).
  rewrite (steps_of_app m s l Hl). exact HQ.
Qed.

Section Emits.

Variable host : Host.
Variable Q : list step -> Prop.
Hypothesis HQ : closed Q.

Lemma emits_ext {A} (m m' : M A) :
  (forall s, m' s = m s) -> emits Q m -> emits Q m'.
Proof. intros Heq H s. rewrite Heq. apply H. Qed.

Lemma emits_ret {A} (a : A) : emits Q (ret a).
Proof. intros s. exists []. rewrite app_nil_r. split; [reflexivity | apply HQ]. Qed.

Lemma emits_throw {A} e : emits Q (@throw A e).
Proof. intros s. exists []. rewrite app_nil_r. split; [reflexivity | apply HQ]. Qed.

Lemma emits_log st : Q [st] -> emits Q (log st).
Proof. intros H s. exists [st]. split; [reflexivity | exact H]. Qed.

Lemma emits_bind {A B} (m : M A) (f : A -> M B) :
  emits Q m -> (forall a, emits Q (f a)) -> emits Q (bind m f).
Proof.
  intros Hm Hf s. rewrite bind_run.
  destruct (Hm s) as (l1 & Hl1 & HQ1).
  destruct (m s) as [[a|e] s1]; cbn in Hl1.
  - destruct (Hf a s1) as (l2 & Hl2 & HQ2).
    exists (l1 ++ l2). rewrite Hl2, Hl1, app_assoc.
    split; [reflexivity | apply HQ; assumption].
  - exists l1. split; assumption.
Qed.

Lemma emits_await {A} (m : M A) : emits Q m -> emits Q (await host m).
Proof.
  intros Hm s. destruct (Hm s) as (l & Hl & Hl'). exists l.
  unfold await. destruct (m s) as [r s1]. split; assumption.
Qed.

Lemma emits_of_result {A} (r : exn + A) : emits Q (of_result r).
Proof. destruct r; [apply emits_throw | apply emits_ret]. Qed.

Lemma emits_readFile file :
  (forall r, Q [ReadFile file r]) -> emits Q (readFile host file).
Proof.
  intros H s. unfold readFile.
  apply (emits_bind (log _) (fun _ => of_result _));
    [apply emits_log, H | intros _; apply emits_of_result].
Qed.

Lemma emits_optimise data level strip :
  Q [Optimise data level strip (api_optimise host data level strip)] ->
  emits Q (optimise host data level strip).
Proof.
  intros H. apply emits_bind; [apply emits_log, H | intros _; apply emits_of_result].
Qed.

Lemma emits_writeFile file data :
  Q [WriteFile file data] -> emits Q (writeFile file data).
Proof. intros H s. exists [WriteFile file data]. split; [reflexivity | exact H]. Qed.

Lemma emits_addSavings a b : Q [AddSavings a b] -> emits Q (addSavings a b).
Proof. intros H s. exists [AddSavings a b]. split; [reflexivity | exact H]. Qed.

Lemma emits_resetSavings : emits Q resetSavings.
Proof. intros s. exists []. rewrite app_nil_r. split; [reflexivity | apply HQ]. Qed.

Lemma emits_getSavings : emits Q getSavings.
Proof. intros s. exists []. rewrite app_nil_r. split; [reflexivity | apply HQ]. Qed.

Lemma emits_item files i : emits Q (item files i).
Proof. unfold item. destruct (files !! i); [apply emits_ret | apply emits_throw]. Qed.

Lemma emits_for_loop body count :
  (forall i, emits Q (body i)) -> forall i, emits Q (for_loop count i body).
Proof.
  intros Hbody. induction count as [|count IH]; intros i; cbn [for_loop].
  - apply emits_ret.
  - apply emits_bind; [apply Hbody | intros _; apply IH].
Qed.

(** One file of a batch, when [Q] holds of the steps of every attempt. *)
Lemma emits_batchFile pause label count file :
  (forall a, Q (attempt_steps pause label count a)) ->
  emits Q (batchFile host pause label count file).
Proof.
  intros H s.
  destruct (batchFile host pause label count file s) as [r s'] eqn:Hrun.
  apply batchFile_spec in Hrun as (a & _ & _ & Hh & _).
  exists (attempt_steps pause label count a). split; [exact Hh | apply H].
Qed.

End Emits.

(** One rule of [emits], chosen by the shape of the command. *)
Ltac emits_step HQ :=
  cbv zeta;
  lazymatch goal with
  | |- emits _ (bind _ _) => apply emits_bind; [exact HQ | | intros ?]
  | |- emits _ (await _ _) => apply emits_await
  | |- emits _ (ret _) => apply emits_ret; exact HQ
  | |- emits _ (throw _) => apply emits_throw; exact HQ
  | |- emits _ (of_result _) => apply emits_of_result; exact HQ
  | |- emits _ resetSavings => apply emits_resetSavings; exact HQ
  | |- emits _ getSavings => apply emits_getSavings; exact HQ
  | |- emits _ (item _ _) => apply emits_item; exact HQ
  | |- emits _ (readFile _ _) => apply emits_readFile; [exact HQ | intros ?]
  | |- emits _ (optimise _ _ _ _) => apply emits_optimise; [exact HQ |]
  | |- emits _ (writeFile _ _) => apply emits_writeFile
  | |- emits _ (addSavings _ _) => apply emits_addSavings
  | |- emits _ (log _) => apply emits_log
  | |- emits _ (for_loop _ _ _) => apply emits_for_loop; [exact HQ | intros ?]
  | |- emits _ (match ?x with _ => _ end) => destruct x
  end.

Ltac emits_all HQ :=
  unfold commandOptimise, commandOptimiseFolder, commandOptimiseGitChanges,
    selectRepository, folderBody, gitBody, readDirectory, modifiedPNGs,
    showQuickPick, withProgress, showInformationMessage, showErrorMessage,
    consoleLog, report, sleep;
  repeat emits_step HQ.

(** ** The options of the engine calls *)

(** C8 (confirmed): the command for one file calls the engine with level 2,
    the two batch commands call it with level 1, and every call uses the
    policy [safe]. *)
Theorem engine_options_fixed_per_mode host :
  (forall param s,
     Forall (engine_called_with host 2 vscOxipng.safe)
       (steps_of (commandOptimise host param) s)) /\
  (forall param s,
     Forall (engine_called_with host 1 vscOxipng.safe)
       (steps_of (commandOptimiseFolder host param) s)) /\
  (forall param s,
     Forall (engine_called_with host 1 vscOxipng.safe)
       (steps_of (commandOptimiseGitChanges host param) s)).
Proof.
  split; [|split]; intros param s; apply emits_steps_of;
    match goal with |- emits ?Q _ =>
      let HQ := fresh "HQ" in
      assert (HQ : closed Q) by apply closed_Forall;
      emits_all HQ
    end;
    repeat constructor.
Qed.

(** ** The pause of the change-set mode *)

Lemma closed_paused_after_engine : closed paused_after_engine.
Proof.
  split; [exact I|].
  induction l1 as [|st l1 IH]; intros l2 H1 H2; [exact H2|].
  destruct st; cbn in *; try (apply IH; assumption).
  destruct result as [e|out_data]; [apply IH; assumption|].
  destruct H1 as [(a & b & file & rest' & ->) H1]. split.
  - exists a, b, file, (rest' ++ l2). reflexivity.
  - apply IH; assumption.
Qed.

(** C10 (confirmed): in the change-set mode every engine call that returns
    is followed by a pause of 2000 milliseconds, before the sizes are added
    to the accumulators and before the result is written; the folder mode
    and the single-file mode never pause. *)
Theorem pause_in_change_set_mode_only host :
  (forall param s,
     paused_after_engine (steps_of (commandOptimiseGitChanges host param) s)) /\
  (forall param s,
     Forall (fun st => is_pause st = false)
       (steps_of (commandOptimiseFolder host param) s)) /\
  (forall param s,
     Forall (fun st => is_pause st = false)
       (steps_of (commandOptimise host param) s)).
Proof.
  split; [|split]; intros param s; apply emits_steps_of.
  - pose proof closed_paused_after_engine as HQ.
    unfold commandOptimiseGitChanges, selectRepository, modifiedPNGs,
      showQuickPick, withProgress, showInformationMessage, showErrorMessage,
      report.
    repeat emits_step HQ; try exact I.
    eapply emits_ext; [apply gitBody_batchFile|].
    apply emits_bind; [exact HQ | apply emits_item; exact HQ | intros file].
    apply emits_batchFile. intros [f d o|f e|f d e]; cbn; eauto 10.
  - assert (HQ : closed (Forall (fun st => is_pause st = false)))
      by apply closed_Forall.
    emits_all HQ; repeat constructor.
  - assert (HQ : closed (Forall (fun st => is_pause st = false)))
      by apply closed_Forall.
    emits_all HQ; repeat constructor.
Qed.

(** ** Progress reports *)

Lemma emits_history Q {A} (m : M A) s :
  emits Q m -> history (m s).2 = history s ++ steps_of m s.
Proof.
  intros H. destruct (H s) as (l & Hl & _).
  rewrite (steps_of_app m s l Hl). exact Hl.
Qed.

Lemma closed_True : closed (fun _ => True).
Proof. split; auto. Qed.

Lemma selectRepository_emits host git param :
  emits (fun _ => True) (selectRepository host git param).
Proof.
  pose proof closed_True as HQ.
  unfold selectRepository, showQuickPick. repeat emits_step HQ; exact I.
Qed.

(** The change-set command in terms of its own steps. *)
Lemma changes_steps_of host git param repo files s s1 :
  gitApi host = Some git ->
  selectRepository host git param s = (Returned (Some repo), s1) ->
  gitModifiedPNGs host repo = inr files ->
  exists atts,
    loop_result files atts (commandOptimiseGitChanges host param s).1 /\
    steps_of (commandOptimiseGitChanges host param) s =
      steps_of (selectRepository host git param) s ++
      changes_steps host repo files atts (commandOptimiseGitChanges host param s).1 /\
    pngSavingsIn (commandOptimiseGitChanges host param s).2 = total_in atts /\
    pngSavingsOut (commandOptimiseGitChanges host param s).2 = total_out atts.
Proof.
  intros Hgit Hsel Hfiles.
  destruct (changes_spec host git param repo files s s1 Hgit Hsel Hfiles)
    as (atts & Hres & Hh & Hin & Hout).
  exists atts. split; [exact Hres|]. split; [|split; assumption].
  apply steps_of_app. rewrite Hh, app_assoc. f_equal.
  pose proof (emits_history _ _ s (selectRepository_emits host git param)) as Hs.
  rewrite Hsel in Hs. exact Hs.
Qed.

Lemma reports_app l1 l2 : reports (l1 ++ l2) = reports l1 ++ reports l2.
Proof.
  induction l1 as [|st l1 IH]; [reflexivity|].
  destruct st; cbn; rewrite ?IH; reflexivity.
Qed.

Lemma reports_attempts pause label count atts :
  reports (concat (map (attempt_steps pause label count) atts)) =
  map (fun file => (div hundred (of_nat count), label file))
    (map attempt_file atts).
Proof.
  induction atts as [|a atts IH]; [reflexivity|].
  cbn [map concat]. rewrite reports_app, IH.
  destruct a; destruct pause; reflexivity.
Qed.

Lemma reports_batch pause label count atts r :
  reports (batch_steps pause label count atts r) =
  (of_Z 0, "Starting...") ::
  map (fun file => (div hundred (of_nat count), label file)) (map attempt_file atts).
Proof.
  unfold batch_steps. cbn. rewrite reports_app, reports_attempts.
  destruct r; cbn; rewrite app_nil_r; reflexivity.
Qed.

Lemma reads_announced_prev label prev l :
  reads_announced label None l -> reads_announced label prev l.
Proof.
  destruct l as [|st l]; [auto|]. cbn. intros [H1 H2]. split; [|exact H2].
  destruct st; auto. destruct H1 as [? [=]].
Qed.

Lemma closed_reads_announced label : closed (reads_announced label None).
Proof.
  split; [exact I|].
  assert (Happ : forall l1 prev l2,
             reads_announced label prev l1 -> reads_announced label None l2 ->
             reads_announced label prev (l1 ++ l2)).
  { induction l1 as [|st l1 IH]; intros prev l2 H1 H2.
    - apply reads_announced_prev, H2.
    - cbn in *. destruct H1 as [H1 H1']. split; [exact H1 | apply IH; assumption]. }
  intros l1 l2. apply Happ.
Qed.

Lemma reads_announced_folder host param s :
  reads_announced (fileName host) None (steps_of (commandOptimiseFolder host param) s).
Proof.
  apply emits_steps_of. pose proof (closed_reads_announced (fileName host)) as HQ.
  unfold commandOptimiseFolder, readDirectory, consoleLog, withProgress,
    showInformationMessage, report.
  repeat emits_step HQ; try (cbn; auto; fail).
  eapply emits_ext; [apply folderBody_batchFile|].
  apply emits_bind; [exact HQ | apply emits_item; exact HQ | intros file].
  apply emits_batchFile. intros [f d o|f e|f d e]; cbn; eauto 10.
Qed.

Lemma reads_announced_changes host param s :
  reads_announced (fun file => path_base host (fsPath file)) None
    (steps_of (commandOptimiseGitChanges host param) s).
Proof.
  apply emits_steps_of.
  pose proof (closed_reads_announced (fun file => path_base host (fsPath file))) as HQ.
  unfold commandOptimiseGitChanges, selectRepository, modifiedPNGs,
    showQuickPick, withProgress, showInformationMessage, showErrorMessage,
    report.
  repeat emits_step HQ; try (cbn; auto; fail).
  eapply emits_ext; [apply gitBody_batchFile|].
  apply emits_bind; [exact HQ | apply emits_item; exact HQ | intros file].
  apply emits_batchFile. intros [f d o|f e|f d e]; destruct_and?; cbn; eauto 10.
Qed.

Lemma reports_select host git param s :
  reports (steps_of (selectRepository host git param) s) = [].
Proof.
  apply (emits_steps_of (fun l => reports l = [])).
  assert (HQ : closed (fun l => reports l = [])).
  { split; [reflexivity|]. intros l1 l2 H1 H2. rewrite reports_app, H1, H2. reflexivity. }
  unfold selectRepository, showQuickPick. repeat emits_step HQ; reflexivity.
Qed.

(** C7 (confirmed): the progress observer first receives the report
    "Starting..." with increment 0, then one report per file that the batch
    reaches, with the name of the file and the increment 100 / n, and each
    of them right before the file is read; a batch that returns has reached
    all its n files, so it has sent n such reports. *)
Theorem progress_one_report_per_file host :
  (forall param files s,
     readDirectoryRecursivePNGs host param = inr files ->
     exists k,
       reports (steps_of (commandOptimiseFolder host param) s) =
         (of_Z 0, "Starting...") ::
         map (fun file => (div hundred (of_nat (length files)), fileName host file))
           (take k files) /\
       ((commandOptimiseFolder host param s).1 = Returned tt -> k = length files) /\
       reads_announced (fileName host) None
         (steps_of (commandOptimiseFolder host param) s)) /\
  (forall git param repo files s s1,
     gitApi host = Some git ->
     selectRepository host git param s = (Returned (Some repo), s1) ->
     gitModifiedPNGs host repo = inr files ->
     exists k,
       reports (steps_of (commandOptimiseGitChanges host param) s) =
         (of_Z 0, "Starting...") ::
         map (fun file =>
                (div hundred (of_nat (length files)), path_base host (fsPath file)))
           (take k files) /\
       ((commandOptimiseGitChanges host param s).1 = Returned tt -> k = length files) /\
       reads_announced (fun file => path_base host (fsPath file)) None
         (steps_of (commandOptimiseGitChanges host param) s)).
Proof.
  split.
  - intros param files s Hdir.
    destruct (folder_spec host param files s Hdir) as (atts & [Hfiles Hres] & Hsteps & _).
    exists (length atts). split; [|split].
    + rewrite Hsteps. unfold folder_steps. cbn [app reports].
      rewrite reports_batch, Hfiles. reflexivity.
    + intros Hret. destruct Hres as [(_ & Hlen & _)|(done & a & e & Hthrown & _)];
        [exact Hlen | congruence].
    + apply reads_announced_folder.
  - intros git param repo files s s1 Hgit Hsel Hfiles'.
    destruct (changes_steps_of host git param repo files s s1 Hgit Hsel Hfiles')
      as (atts & [Hfiles Hres] & Hsteps & _).
    exists (length atts). split; [|split].
    + rewrite Hsteps, reports_app, reports_select.
      unfold changes_steps. cbn [app reports].
      rewrite reports_batch, Hfiles. reflexivity.
    + intros Hret. destruct Hres as [(_ & Hlen & _)|(done & a & e & Hthrown & _)];
        [exact Hlen | congruence].
    + apply reads_announced_changes.
Qed.

(** ** A failing read or engine call *)

Lemma completed_no_failed_call pause label count a :
  completed a -> Forall (fun st => call_error st = None) (attempt_steps pause label count a).
Proof.
  destruct a; destruct pause; cbn; intros H; try discriminate H; repeat constructor.
Qed.

Lemma failed_last_call pause label count a e :
  failure a = Some e ->
  exists st, last (attempt_steps pause label count a) = Some st /\ call_error st = Some e.
Proof.
  destruct a; cbn; intros [= ->]; eexists; split; reflexivity.
Qed.

Lemma add_sizes_failed size total a e : failure a = Some e -> add_sizes size total a = total.
Proof. destruct a; cbn; [discriminate | reflexivity..]. Qed.

Lemma not_Exists_failed l :
  Forall (fun st => call_error st = None) l -> ~ Exists call_failed l.
Proof.
  intros Hall Hex. apply Exists_exists in Hex as (st & Hin & [e He]).
  rewrite Forall_forall in Hall. rewrite (Hall st Hin) in He. discriminate.
Qed.

Lemma batch_abort pause label files atts r :
  loop_result files atts r ->
  Exists call_failed (batch_steps pause label (length files) atts r) ->
  exists done a rest e,
    r = Thrown e /\
    files = map attempt_file done ++ attempt_file a :: rest /\
    Forall completed done /\ failure a = Some e /\
    batch_steps pause label (length files) atts r =
      aborted_steps pause label (length files) done a /\
    (exists st, last (aborted_steps pause label (length files) done a) = Some st /\
                call_error st = Some e) /\
    total_in atts = total_in done /\ total_out atts = total_out done.
Proof.
  intros [Hfiles [(-> & Hlen & Hall)|(done & a & e & -> & -> & Hall & Hfail)]] Hex.
  - exfalso. revert Hex. apply not_Exists_failed. unfold batch_steps.
    repeat apply Forall_app_2; [repeat constructor | | repeat constructor].
    apply Forall_concat, Forall_map.
    eapply Forall_impl; [exact Hall|]. intros a. apply completed_no_failed_call.
  - exists done, a, (drop (length (done ++ [a])) files), e.
    split; [reflexivity|]. split; [|split; [exact Hall|split; [exact Hfail|]]].
    + rewrite <- (take_drop (length (done ++ [a])) files) at 1.
      rewrite <- Hfiles, map_app, <- app_assoc. reflexivity.
    + unfold batch_steps, aborted_steps, total_in, total_out.
      rewrite map_app, concat_app, !foldl_app. cbn.
      rewrite !app_nil_r, !(add_sizes_failed _ _ a e Hfail).
      split; [reflexivity|]. split; [|split; reflexivity].
      destruct (failed_last_call pause label (length files) a e Hfail) as (st & Hlast & He).
      exists st. split; [|exact He].
      rewrite app_comm_cons, last_app, Hlast. reflexivity.
Qed.

Lemma no_failed_call_select host git param s :
  Forall (fun st => call_error st = None) (steps_of (selectRepository host git param) s).
Proof.
  apply emits_steps_of.
  assert (HQ : closed (Forall (fun st => call_error st = None))) by apply closed_Forall.
  unfold selectRepository, showQuickPick. repeat emits_step HQ; repeat constructor.
Qed.

(** C2 (amended): when the read of a file or the engine call on a file
    fails, the batch stops there. The files before it were completed and are
    the only ones counted in the accumulators, the failed call is the last
    step, so the files after it are not read, optimised or written and no
    summary is shown, and the command fails with the error of that call,
    as the host or the engine raised it. *)
Theorem failed_call_aborts_batch host :
  (forall param files s,
     readDirectoryRecursivePNGs host param = inr files ->
     Exists call_failed (steps_of (commandOptimiseFolder host param) s) ->
     exists done a rest e,
       (commandOptimiseFolder host param s).1 = Thrown e /\
       files = map attempt_file done ++ attempt_file a :: rest /\
       Forall completed done /\ failure a = Some e /\
       steps_of (commandOptimiseFolder host param) s =
         [ReadDirectory param (inr files); ConsoleLog files] ++
         aborted_steps false (fileName host) (length files) done a /\
       (exists st, last (steps_of (commandOptimiseFolder host param) s) = Some st /\
                   call_error st = Some e) /\
       pngSavingsIn (commandOptimiseFolder host param s).2 = total_in done /\
       pngSavingsOut (commandOptimiseFolder host param s).2 = total_out done) /\
  (forall git param repo files s s1,
     gitApi host = Some git ->
     selectRepository host git param s = (Returned (Some repo), s1) ->
     gitModifiedPNGs host repo = inr files ->
     Exists call_failed (steps_of (commandOptimiseGitChanges host param) s) ->
     exists done a rest e,
       (commandOptimiseGitChanges host param s).1 = Thrown e /\
       files = map attempt_file done ++ attempt_file a :: rest /\
       Forall completed done /\ failure a = Some e /\
       steps_of (commandOptimiseGitChanges host param) s =
         steps_of (selectRepository host git param) s ++
         [GitModifiedPNGs repo (inr files)] ++
         aborted_steps true (fun file => path_base host (fsPath file))
           (length files) done a /\
       (exists st, last (steps_of (commandOptimiseGitChanges host param) s) = Some st /\
                   call_error st = Some e) /\
       pngSavingsIn (commandOptimiseGitChanges host param s).2 = total_in done /\
       pngSavingsOut (commandOptimiseGitChanges host param s).2 = total_out done).
Proof.
  split.
  - intros param files s Hdir Hex.
    destruct (folder_spec host param files s Hdir) as (atts & Hres & Hsteps & Hin & Hout).
    rewrite Hsteps in Hex |- *. unfold folder_steps in *.
    apply Exists_app in Hex as [Hex|Hex].
    { exfalso. revert Hex. apply not_Exists_failed. repeat constructor. }
    destruct (batch_abort _ _ _ _ _ Hres Hex)
      as (done & a & rest & e & Hr & Hfiles & Hall & Hfail & Hb & (st & Hlast & He) & Hti & Hto).
    exists done, a, rest, e. rewrite Hb, Hin, Hout.
    repeat (split; [assumption || reflexivity|]). split; [|split; assumption].
    exists st. split; [|exact He]. rewrite last_app, Hlast. reflexivity.
  - intros git param repo files s s1 Hgit Hsel Hfiles' Hex.
    destruct (changes_steps_of host git param repo files s s1 Hgit Hsel Hfiles')
      as (atts & Hres & Hsteps & Hin & Hout).
    rewrite Hsteps in Hex |- *. unfold changes_steps in *.
    apply Exists_app in Hex as [Hex|Hex].
    { exfalso. revert Hex. apply not_Exists_failed, no_failed_call_select. }
    apply Exists_app in Hex as [Hex|Hex].
    { exfalso. revert Hex. apply not_Exists_failed. repeat constructor. }
    destruct (batch_abort _ _ _ _ _ Hres Hex)
      as (done & a & rest & e & Hr & Hfiles & Hall & Hfail & Hb & (st & Hlast & He) & Hti & Hto).
    exists done, a, rest, e. rewrite Hb, Hin, Hout.
    repeat (split; [assumption || reflexivity|]). split; [|split; assumption].
    exists st. split; [|exact He]. rewrite !last_app, Hlast. reflexivity.
Qed.

(** ** One file at a time *)

Lemma batchFile_write_pending host pause label count file s :
  (batchFile host pause label count file s).1 = Returned tt ->
  exists out_data,
    last (history (batchFile host pause label count file s).2) =
      Some (WriteFile file out_data) /\
    last (pending (batchFile host pause label count file s).2) =
      Some (file, out_data).
Proof.
  unfold batchFile. run_cmd.
  destruct (disk s !! fsPath file) as [in_data|]; cbn; [|discriminate].
  destruct (api_optimise host in_data 1 vscOxipng.safe) as [e|out_data]; cbn;
    [discriminate|].
  intros _. exists out_data. destruct pause; cbn; split; apply last_snoc.
Qed.

(** C5 (amended): a batch works through its files one at a time, in the
    order of the enumeration: the steps of a batch are the steps of its
    first file, then those of the second, and so on, and for each file the
    read has returned before the engine is called and the engine has
    returned before the write is started. The write is started and not
    awaited: when the work on a file ends, its write is the last step and
    is still unsettled. *)
Theorem files_processed_in_turn host :
  (forall param files s,
     readDirectoryRecursivePNGs host param = inr files ->
     exists atts,
       map attempt_file atts = take (length atts) files /\
       steps_of (commandOptimiseFolder host param) s =
         [ReadDirectory param (inr files); ConsoleLog files;
          WithProgress "Optimising PNGs"; Report (of_Z 0) "Starting..."] ++
         concat (map (attempt_steps false (fileName host) (length files)) atts) ++
         match (commandOptimiseFolder host param s).1 with
         | Returned _ => [ShowInformationMessage (summary (length files) atts)]
         | Thrown _ => []
         end) /\
  (forall git param repo files s s1,
     gitApi host = Some git ->
     selectRepository host git param s = (Returned (Some repo), s1) ->
     gitModifiedPNGs host repo = inr files ->
     exists atts,
       map attempt_file atts = take (length atts) files /\
       steps_of (commandOptimiseGitChanges host param) s =
         steps_of (selectRepository host git param) s ++
         [GitModifiedPNGs repo (inr files);
          WithProgress "Optimising PNGs"; Report (of_Z 0) "Starting..."] ++
         concat (map (attempt_steps true (fun file => path_base host (fsPath file))
                        (length files)) atts) ++
         match (commandOptimiseGitChanges host param s).1 with
         | Returned _ => [ShowInformationMessage (summary (length files) atts)]
         | Thrown _ => []
         end) /\
  (forall files count i file s,
     files !! i = Some file ->
     ((folderBody host files count i s).1 = Returned tt ->
      exists out_data,
        last (history (folderBody host files count i s).2) =
          Some (WriteFile file out_data) /\
        last (pending (folderBody host files count i s).2) = Some (file, out_data)) /\
     ((gitBody host files count i s).1 = Returned tt ->
      exists out_data,
        last (history (gitBody host files count i s).2) =
          Some (WriteFile file out_data) /\
        last (pending (gitBody host files count i s).2) = Some (file, out_data))).
Proof.
  split; [|split].
  - intros param files s Hdir.
    destruct (folder_spec host param files s Hdir) as (atts & [Hfiles _] & Hsteps & _).
    exists atts. split; [exact Hfiles | exact Hsteps].
  - intros git param repo files s s1 Hgit Hsel Hfiles'.
    destruct (changes_steps_of host git param repo files s s1 Hgit Hsel Hfiles')
      as (atts & [Hfiles _] & Hsteps & _).
    exists atts. split; [exact Hfiles | exact Hsteps].
  - intros files count i file s Hi. split.
    + replace (folderBody host files count i s)
        with (batchFile host false (fileName host) count file s)
        by (rewrite folderBody_batchFile, bind_run; unfold item; rewrite Hi; reflexivity).
      apply batchFile_write_pending.
    + replace (gitBody host files count i s)
        with (batchFile host true (fun file => path_base host (fsPath file)) count file s)
        by (rewrite gitBody_batchFile, bind_run; unfold item; rewrite Hi; reflexivity).
      apply batchFile_write_pending.
Qed.

(** * Concrete runs *)

Example folder_run_two_files :
  steps_of (commandOptimiseFolder (demo_host two_files None None) folder)
    (initial five_disk) =
  [ReadDirectory folder (inr two_files); ConsoleLog two_files;
   WithProgress "Optimising PNGs"; Report (of_Z 0) "Starting...";
   Report (of_Z 50) "/w/1.png";
   ReadFile png1 (inr [Byte.x89; Byte.x50; Byte.x4e]);
   Optimise [Byte.x89; Byte.x50; Byte.x4e] 1 vscOxipng.safe (inr [Byte.x50; Byte.x4e]);
   AddSavings (of_Z 3) (of_Z 2);
   WriteFile png1 [Byte.x50; Byte.x4e];
   Report (of_Z 50) "/w/2.png";
   ReadFile png2 (inr [Byte.x89; Byte.x50]);
   Optimise [Byte.x89; Byte.x50] 1 vscOxipng.safe (inr [Byte.x50]);
   AddSavings (of_Z 2) (of_Z 1);
   WriteFile png2 [Byte.x50];
   ShowInformationMessage "Optimised 2 PNGs (40.00% smaller)"].
Proof. vm_compute. reflexivity. Qed.

Example changes_run_two_files :
  steps_of (commandOptimiseGitChanges
              (demo_host two_files (Some (demo_git [repo1; repo2])) (Some "/r2")) None)
    (initial five_disk) =
  [ShowQuickPick [Some "/r1"; Some "/r2"] (Some "/r2");
   GitModifiedPNGs repo2 (inr two_files);
   WithProgress "Optimising PNGs"; Report (of_Z 0) "Starting...";
   Report (of_Z 50) "/w/1.png";
   ReadFile png1 (inr [Byte.x89; Byte.x50; Byte.x4e]);
   Optimise [Byte.x89; Byte.x50; Byte.x4e] 1 vscOxipng.safe (inr [Byte.x50; Byte.x4e]);
   SetTimeout 2000;
   AddSavings (of_Z 3) (of_Z 2);
   WriteFile png1 [Byte.x50; Byte.x4e];
   Report (of_Z 50) "/w/2.png";
   ReadFile png2 (inr [Byte.x89; Byte.x50]);
   Optimise [Byte.x89; Byte.x50] 1 vscOxipng.safe (inr [Byte.x50]);
   SetTimeout 2000;
   AddSavings (of_Z 2) (of_Z 1);
   WriteFile png2 [Byte.x50];
   ShowInformationMessage "Optimised 2 PNGs (40.00% smaller)"].
Proof. vm_compute. reflexivity. Qed.

Example single_run :
  steps_of (commandOptimise (demo_host [] None None) png1) (initial five_disk) =
  [ShowInformationMessage "Called: /w/1.png";
   ReadFile png1 (inr [Byte.x89; Byte.x50; Byte.x4e]);
   Optimise [Byte.x89; Byte.x50; Byte.x4e] 2 vscOxipng.safe (inr [Byte.x50; Byte.x4e]);
   ShowInformationMessage "Optimised: /w/1.png";
   ShowInformationMessage "2 bytes (33.33% smaller)";
   WriteFile png1 [Byte.x50; Byte.x4e]].
Proof. vm_compute. reflexivity. Qed.

(** A write that fails does not stop the batch: the promise of the write is
    dropped, and the failure is only seen by the host. *)
Example failed_write_goes_unnoticed :
  let host :=
    {| api_optimise := demo_engine;
       read_error := fun _ => {| message := "EntryNotFound (FileSystemError)" |};
       write_error := fun _ => Some {| message := "NoPermissions (FileSystemError)" |};
       settles := fun _ => 16%nat;
       fileName := fsPath;
       readDirectoryRecursivePNGs := fun _ => inr two_files;
       path_base := fun p => p;
       gitApi := None;
       gitModifiedPNGs := fun _ => inr [];
       quickPick := fun _ => None |} in
  let run := commandOptimiseFolder host folder (initial five_disk) in
  run.1 = Returned tt /\
  last (history run.2) =
    Some (ShowInformationMessage "Optimised 2 PNGs (40.00% smaller)") /\
  disk run.2 = five_disk.
Proof. vm_compute. auto. Qed.

(** *** C2 *)

(** Five files, the engine fails on the third: the command fails with the
    error of the engine, which names neither the file nor the two files
    already completed. *)
Lemma engine_error_surfaces_bare :
  ~ (forall e,
       (commandOptimiseFolder (demo_host five_files None None) folder
          (initial five_disk)).1 = Thrown e ->
       names_failure e png3 2 = true).
Proof.
  intros H.
  assert (Hrun : (commandOptimiseFolder (demo_host five_files None None) folder
                    (initial five_disk)).1 = Thrown {| message := "oxipng: not a PNG" |})
    by (vm_compute; reflexivity).
  specialize (H _ Hrun). vm_compute in H. discriminate H.
Qed.

Lemma failed_call_aborts_batch_witness :
  readDirectoryRecursivePNGs (demo_host five_files None None) folder = inr five_files /\
  Exists call_failed
    (steps_of (commandOptimiseFolder (demo_host five_files None None) folder)
       (initial five_disk)) /\
  exists done a rest e,
    (commandOptimiseFolder (demo_host five_files None None) folder
       (initial five_disk)).1 = Thrown e /\
    five_files = map attempt_file done ++ attempt_file a :: rest /\
    Forall completed done /\ failure a = Some e.
Proof.
  assert (Hex : Exists call_failed
    (steps_of (commandOptimiseFolder (demo_host five_files None None) folder)
       (initial five_disk))).
  { apply Exists_exists.
    exists (Optimise [] 1 vscOxipng.safe (inl {| message := "oxipng: not a PNG" |})).
    split; [vm_compute; repeat ((left; reflexivity) || right) | eexists; reflexivity]. }
  split; [reflexivity|]. split; [exact Hex|].
  destruct (proj1 (failed_call_aborts_batch (demo_host five_files None None))
              folder five_files (initial five_disk) eq_refl Hex)
    as (done & a & rest & e & H1 & H2 & H3 & H4 & _).
  exists done, a, rest, e. auto.
Defined.

(** *** C3 *)

Lemma repository_selection_three_way_witness :
  gitApi (demo_host [] (Some (demo_git [repo1; repo2])) (Some "/r2")) =
    Some (demo_git [repo1; repo2]) /\
  steps_of (selectRepository
              (demo_host [] (Some (demo_git [repo1; repo2])) (Some "/r2"))
              (demo_git [repo1; repo2]) None) (initial five_disk) =
    [ShowQuickPick [Some "/r1"; Some "/r2"] (Some "/r2")] /\
  (selectRepository
     (demo_host [] (Some (demo_git [repo1; repo2])) (Some "/r2"))
     (demo_git [repo1; repo2]) None (initial five_disk)).1 = Returned (Some repo2).
Proof.
  split; [reflexivity|].
  destruct (repository_selection_three_way
              (demo_host [] (Some (demo_git [repo1; repo2])) (Some "/r2"))
              (demo_git [repo1; repo2]) (initial five_disk) eq_refl)
    as (_ & _ & Hmany).
  destruct (Hmany repo1 repo2 [] eq_refl) as [Hsteps Hpick].
  split; [exact Hsteps|].
  apply (Hpick "/r2" eq_refl). discriminate.
Defined.

(** *** C4 *)

(** Two repositories, the user dismisses the choice: the command shows an
    error message. *)
Lemma cancelled_pick_is_not_silent :
  ~ silent
      (steps_of (commandOptimiseGitChanges
                   (demo_host [] (Some (demo_git [repo1; repo2])) None) None)
         (initial five_disk)).
Proof.
  intros H.
  assert (Hsteps :
    steps_of (commandOptimiseGitChanges
                (demo_host [] (Some (demo_git [repo1; repo2])) None) None)
      (initial five_disk) =
    [ShowQuickPick [Some "/r1"; Some "/r2"] None;
     ShowErrorMessage "No repository found"]) by (vm_compute; reflexivity).
  rewrite Hsteps in H.
  apply Forall_cons_1 in H as [_ H]. apply Forall_cons_1 in H as [H _].
  discriminate H.
Qed.

Lemma cancelled_pick_reports_no_repository_witness :
  quickPick (demo_host [] (Some (demo_git [repo1; repo2])) None)
    (root_paths [repo1; repo2]) = None /\
  steps_of (commandOptimiseGitChanges
              (demo_host [] (Some (demo_git [repo1; repo2])) None) None)
    (initial five_disk) =
    [ShowQuickPick (root_paths [repo1; repo2]) None;
     ShowErrorMessage "No repository found"] /\
  disk (commandOptimiseGitChanges
          (demo_host [] (Some (demo_git [repo1; repo2])) None) None
          (initial five_disk)).2 = five_disk.
Proof.
  split; [reflexivity|].
  destruct (cancelled_pick_reports_no_repository
              (demo_host [] (Some (demo_git [repo1; repo2])) None)
              (demo_git [repo1; repo2]) repo1 repo2 [] (initial five_disk)
              eq_refl eq_refl eq_refl)
    as (Hsteps & _ & _ & Hdisk).
  split; [exact Hsteps | exact (proj1 (Hdisk eq_refl))].
Defined.

(** *** C5 *)

(** Two files, on a host that settles every write as soon as it can: the
    write of the first file (step 8) settles when eleven steps have been
    executed, after the report and the read of the second file. *)
Lemma write_unsettled_when_next_file_begins :
  ~ writes_settled_in_turn
      (commandOptimiseFolder (demo_host two_files None None) folder
         (initial five_disk)).2.
Proof.
  intros H.
  set (s := (commandOptimiseFolder (demo_host two_files None None) folder
               (initial five_disk)).2) in *.
  assert (Hwrite : history s !! 8%nat = Some (WriteFile png1 [Byte.x50; Byte.x4e]))
    by (vm_compute; reflexivity).
  assert (Hnext : is_Some (history s !! 9%nat))
    by (exists (Report (of_Z 50) "/w/2.png"); vm_compute; reflexivity).
  assert (Hsettled : settled s =
    [{| settled_file := png1; settled_data := [Byte.x50; Byte.x4e];
        settled_error := None; at_step := 11 |};
     {| settled_file := png2; settled_data := [Byte.x50];
        settled_error := None; at_step := 14 |}])
    by (vm_compute; reflexivity).
  destruct (H 8%nat png1 [Byte.x50; Byte.x4e] Hwrite Hnext) as (w & Hw & _ & _ & Hat).
  rewrite Hsettled in Hw. apply list_elem_of_In in Hw.
  destruct Hw as [<-|[<-|[]]]; cbn in Hat; lia.
Qed.

Lemma files_processed_in_turn_witness :
  readDirectoryRecursivePNGs (demo_host two_files None None) folder = inr two_files /\
  exists atts,
    map attempt_file atts = take (length atts) two_files /\
    steps_of (commandOptimiseFolder (demo_host two_files None None) folder)
      (initial five_disk) =
      [ReadDirectory folder (inr two_files); ConsoleLog two_files;
       WithProgress "Optimising PNGs"; Report (of_Z 0) "Starting..."] ++
      concat (map (attempt_steps false fsPath 2) atts) ++
      match (commandOptimiseFolder (demo_host two_files None None) folder
               (initial five_disk)).1 with
      | Returned _ => [ShowInformationMessage (summary 2 atts)]
      | Thrown _ => []
      end.
Proof.
  split; [reflexivity|].
  exact (proj1 (files_processed_in_turn (demo_host two_files None None))
           folder two_files (initial five_disk) eq_refl).
Defined.

(** *** C7 *)

Lemma progress_one_report_per_file_witness :
  readDirectoryRecursivePNGs (demo_host two_files None None) folder = inr two_files /\
  exists k,
    reports (steps_of (commandOptimiseFolder (demo_host two_files None None) folder)
               (initial five_disk)) =
      (of_Z 0, "Starting...") ::
      map (fun file => (div hundred (of_nat 2), fsPath file)) (take k two_files) /\
    ((commandOptimiseFolder (demo_host two_files None None) folder
        (initial five_disk)).1 = Returned tt -> k = 2%nat).
Proof.
  split; [reflexivity|].
  destruct (proj1 (progress_one_report_per_file (demo_host two_files None None))
              folder two_files (initial five_disk) eq_refl)
    as (k & Hreports & Hk & _).
  exists k. split; [exact Hreports | exact Hk].
Defined.

(** ** The savings summary *)

Open Scope string_scope.
Open Scope Z_scope.

Lemma savings_smaller a b :
  exact_integer a -> exact_integer b -> b <= a ->
  savingsStringPercent (of_Z a) (of_Z b) =
    "(" ++ toFixed (mul (div (of_Z (a - b)) (of_Z a)) hundred) 2 ++ "% smaller)" /\
  savingsString (of_Z a) (of_Z b) =
    toString (of_Z b) ++ " bytes (" ++
    toFixed (mul (div (of_Z (a - b)) (of_Z a)) hundred) 2 ++ "% smaller)".
Proof.
  intros Ha Hb Hle. unfold savingsStringPercent, savingsString.
  rewrite (ge_of_Z a b Ha Hb), (proj2 (Z.leb_le b a) Hle).
  rewrite sub_of_Z by (unfold exact_integer in *; lia). split; reflexivity.
Qed.

Lemma savings_larger a b :
  exact_integer a -> exact_integer b -> a < b ->
  savingsStringPercent (of_Z a) (of_Z b) =
    "(" ++ toFixed (mul (div (of_Z (b - a)) (of_Z a)) hundred) 2 ++ "% larger)" /\
  savingsString (of_Z a) (of_Z b) =
    toString (of_Z b) ++ " bytes (" ++
    toFixed (mul (div (of_Z (b - a)) (of_Z a)) hundred) 2 ++ "% larger)".
Proof.
  intros Ha Hb Hlt. unfold savingsStringPercent, savingsString.
  rewrite (ge_of_Z a b Ha Hb), (proj2 (Z.leb_gt b a) Hlt).
  rewrite sub_of_Z by (unfold exact_integer in *; lia). split; reflexivity.
Qed.

(** C6 (confirmed): for sizes that a number holds exactly and a total input
    that is not zero, the summary shows, with two decimal places, the
    hundredths nearest to the value of ((in - out) / in) * 100 and the word
    "smaller" when in >= out, and those nearest to ((out - in) / in) * 100
    and the word "larger" otherwise; the divisions and multiplications are
    those of binary64. For 1000 and 800 it shows "20.00% smaller", for 800
    and 1000 "25.00% larger". *)
Theorem savings_percentage_two_decimals :
  (forall a b,
     exact_integer a -> exact_integer b -> 0 < a ->
     (b <= a ->
      exists n,
        0 <= n /\
        nearest_hundredth (mul (div (of_Z (a - b)) (of_Z a)) hundred) n /\
        savingsStringPercent (of_Z a) (of_Z b) =
          "(" ++ two_decimals n ++ "% smaller)" /\
        savingsString (of_Z a) (of_Z b) =
          toString (of_Z b) ++ " bytes (" ++ two_decimals n ++ "% smaller)") /\
     (a < b ->
      exists n,
        0 <= n /\
        nearest_hundredth (mul (div (of_Z (b - a)) (of_Z a)) hundred) n /\
        savingsStringPercent (of_Z a) (of_Z b) =
          "(" ++ two_decimals n ++ "% larger)" /\
        savingsString (of_Z a) (of_Z b) =
          toString (of_Z b) ++ " bytes (" ++ two_decimals n ++ "% larger)")) /\
  savingsStringPercent (of_Z 1000) (of_Z 800) = "(20.00% smaller)" /\
  savingsStringPercent (of_Z 800) (of_Z 1000) = "(25.00% larger)" /\
  savingsString (of_Z 1000) (of_Z 800) = "800 bytes (20.00% smaller)" /\
  savingsString (of_Z 800) (of_Z 1000) = "1000 bytes (25.00% larger)".
Proof.
  split; [|repeat split; vm_compute; reflexivity].
  intros a b Ha Hb Ha0. split.
  - intros Hle.
    destruct (percentage_two_decimals (a - b) a) as (n & Hn & Hnear & Hfix);
      [unfold exact_integer in *; lia | assumption | assumption |].
    destruct (savings_smaller a b Ha Hb Hle) as [H1 H2].
    exists n. rewrite H1, H2, Hfix. auto.
  - intros Hlt.
    destruct (percentage_two_decimals (b - a) a) as (n & Hn & Hnear & Hfix);
      [unfold exact_integer in *; lia | assumption | assumption |].
    destruct (savings_larger a b Ha Hb Hlt) as [H1 H2].
    exists n. rewrite H1, H2, Hfix. auto.
Qed.

Lemma savings_percentage_two_decimals_witness :
  exact_integer 3 /\ exact_integer 2 /\ 0 < 3 /\ 2 <= 3 /\
  exists n,
    0 <= n /\
    nearest_hundredth (mul (div (of_Z (3 - 2)) (of_Z 3)) hundred) n /\
    savingsStringPercent (of_Z 3) (of_Z 2) = "(" ++ two_decimals n ++ "% smaller)".
Proof.
  assert (H3 : exact_integer 3) by (unfold exact_integer; lia).
  assert (H2 : exact_integer 2) by (unfold exact_integer; lia).
  repeat (split; [assumption || lia|]).
  destruct (proj1 (proj1 savings_percentage_two_decimals 3 2 H3 H2 ltac:(lia)) ltac:(lia))
    as (n & Hn & Hnear & Hs & _).
  exists n. auto.
Defined.

(** C1 (the code misses the case): with a total input of zero the summary
    divides by zero. A batch without files shows "(NaN% smaller)", and a
    total input of zero with a total output that is not zero shows
    "(Infinity% larger)". *)
Theorem zero_total_shows_NaN_or_Infinity :
  savingsStringPercent (of_Z 0) (of_Z 0) = "(NaN% smaller)" /\
  savingsString (of_Z 0) (of_Z 0) = "0 bytes (NaN% smaller)" /\
  (forall b, 0 < b < 2 ^ 53 ->
     savingsStringPercent (of_Z 0) (of_Z b) = "(Infinity% larger)") /\
  (forall host param s,
     readDirectoryRecursivePNGs host param = inr []%list ->
     steps_of (commandOptimiseFolder host param) s =
       [ReadDirectory param (inr []%list); ConsoleLog []%list;
        WithProgress "Optimising PNGs"; Report (of_Z 0) "Starting...";
        ShowInformationMessage "Optimised 0 PNGs (NaN% smaller)"]%list).
Proof.
  split; [reflexivity|]. split; [reflexivity|]. split.
  - intros b Hb. destruct b as [|b|b]; try lia.
    unfold savingsStringPercent. rewrite (of_Z_pos b) by lia. reflexivity.
  - intros host param s Hdir. apply steps_of_app.
    unfold commandOptimiseFolder. run_cmd. rewrite Hdir. cbn.
    rewrite <- !app_assoc. reflexivity.
Qed.

Lemma zero_total_shows_NaN_or_Infinity_witness :
  readDirectoryRecursivePNGs (demo_host []%list None None) folder = inr []%list /\
  last (steps_of (commandOptimiseFolder (demo_host []%list None None) folder)
          (initial five_disk)) =
    Some (ShowInformationMessage "Optimised 0 PNGs (NaN% smaller)").
Proof.
  split; [reflexivity|].
  destruct zero_total_shows_NaN_or_Infinity as (_ & _ & _ & H).
  rewrite (H (demo_host []%list None None) folder (initial five_disk) eq_refl).
  reflexivity.
Defined.

Open Scope list_scope.

(** ** The accumulators *)

Lemma foldl_add_sizes size atts : forall z : nat,
  Forall completed atts ->
  Z.of_nat (z + list_sum (map size atts)) < 2 ^ 53 ->
  foldl (add_sizes size) (of_nat z) atts = of_nat (z + list_sum (map size atts)).
Proof.
  induction atts as [|a atts IH]; intros z Hall Hsum; cbn [foldl map].
  - cbn. rewrite Nat.add_0_r. reflexivity.
  - apply Forall_cons_1 in Hall as [Ha Hall]. cbn [map] in Hsum.
    change (list_sum (size a :: map size atts))
      with (size a + list_sum (map size atts))%nat in *.
    assert (Hstep : add_sizes size (of_nat z) a = of_nat (z + size a)).
    { destruct a; try discriminate Ha. cbn [add_sizes]. unfold of_nat.
      rewrite add_of_Z by lia. f_equal. lia. }
    rewrite Hstep, IH by (try assumption; lia). f_equal. lia.
Qed.

Lemma sizes_app l1 l2 :
  read_sizes (l1 ++ l2) = read_sizes l1 ++ read_sizes l2 /\
  result_sizes (l1 ++ l2) = result_sizes l1 ++ result_sizes l2.
Proof.
  induction l1 as [|st l1 [IH1 IH2]]; [split; reflexivity|].
  destruct st; cbn; rewrite ?IH1, ?IH2; try (split; reflexivity);
    destruct result; cbn; rewrite ?IH1, ?IH2; split; reflexivity.
Qed.

Lemma sizes_attempts pause label count atts :
  Forall completed atts ->
  read_sizes (concat (map (attempt_steps pause label count) atts)) = map in_size atts /\
  result_sizes (concat (map (attempt_steps pause label count) atts)) = map out_size atts.
Proof.
  induction atts as [|a atts IH]; intros Hall; [split; reflexivity|].
  apply Forall_cons_1 in Hall as [Ha Hall]. destruct (IH Hall) as [IH1 IH2].
  cbn [map concat].
  destruct (sizes_app (attempt_steps pause label count a)
              (concat (map (attempt_steps pause label count) atts))) as [-> ->].
  rewrite IH1, IH2.
  destruct a; try discriminate Ha. destruct pause; split; reflexivity.
Qed.

Lemma sizes_batch pause label count atts :
  Forall completed atts ->
  read_sizes (batch_steps pause label count atts (Returned tt)) = map in_size atts /\
  result_sizes (batch_steps pause label count atts (Returned tt)) = map out_size atts.
Proof.
  intros Hall. unfold batch_steps. cbn [app read_sizes result_sizes].
  destruct (sizes_app (concat (map (attempt_steps pause label count) atts))
              [ShowInformationMessage (summary count atts)]) as [-> ->].
  destruct (sizes_attempts pause label count atts Hall) as [-> ->].
  cbn. rewrite !app_nil_r. split; reflexivity.
Qed.

Lemma sizes_select host git param s :
  read_sizes (steps_of (selectRepository host git param) s) = [] /\
  result_sizes (steps_of (selectRepository host git param) s) = [].
Proof.
  apply (emits_steps_of (fun l => read_sizes l = [] /\ result_sizes l = [])).
  assert (HQ : closed (fun l => read_sizes l = [] /\ result_sizes l = [])).
  { split; [split; reflexivity|]. intros l1 l2 [H1 H1'] [H2 H2'].
    destruct (sizes_app l1 l2) as [-> ->]. rewrite H1, H1', H2, H2'. split; reflexivity. }
  unfold selectRepository, showQuickPick. repeat emits_step HQ; split; reflexivity.
Qed.

Lemma totals_exact atts :
  Forall completed atts ->
  Z.of_nat (list_sum (map in_size atts)) < 2 ^ 53 ->
  Z.of_nat (list_sum (map out_size atts)) < 2 ^ 53 ->
  total_in atts = of_nat (list_sum (map in_size atts)) /\
  total_out atts = of_nat (list_sum (map out_size atts)).
Proof.
  intros Hall Hin Hout. unfold total_in, total_out. change (of_Z 0) with (of_nat 0).
  rewrite !foldl_add_sizes by assumption. split; reflexivity.
Qed.

(** C9 (confirmed): when a batch returns, the first accumulator holds the
    sum of the sizes of the data read from the files and the second the sum
    of the sizes of the results of the engine, as long as the sums are
    integers that a number holds exactly (below 2^53); the summary is
    computed from these two sums. *)
Theorem totals_are_sums_of_sizes host :
  (forall param files s,
     readDirectoryRecursivePNGs host param = inr files ->
     (commandOptimiseFolder host param s).1 = Returned tt ->
     (Z.of_nat (list_sum (read_sizes (steps_of (commandOptimiseFolder host param) s)))
        < 2 ^ 53)%Z ->
     (Z.of_nat (list_sum (result_sizes (steps_of (commandOptimiseFolder host param) s)))
        < 2 ^ 53)%Z ->
     pngSavingsIn (commandOptimiseFolder host param s).2 =
       of_nat (list_sum (read_sizes (steps_of (commandOptimiseFolder host param) s))) /\
     pngSavingsOut (commandOptimiseFolder host param s).2 =
       of_nat (list_sum (result_sizes (steps_of (commandOptimiseFolder host param) s))) /\
     last (steps_of (commandOptimiseFolder host param) s) =
       Some (ShowInformationMessage
               ("Optimised " ++ toString (of_nat (length files)) ++ " PNGs " ++
                savingsStringPercent
                  (of_nat (list_sum (read_sizes
                     (steps_of (commandOptimiseFolder host param) s))))
                  (of_nat (list_sum (result_sizes
                     (steps_of (commandOptimiseFolder host param) s)))))%string)) /\
  (forall git param repo files s s1,
     gitApi host = Some git ->
     selectRepository host git param s = (Returned (Some repo), s1) ->
     gitModifiedPNGs host repo = inr files ->
     (commandOptimiseGitChanges host param s).1 = Returned tt ->
     (Z.of_nat (list_sum (read_sizes (steps_of (commandOptimiseGitChanges host param) s)))
        < 2 ^ 53)%Z ->
     (Z.of_nat (list_sum (result_sizes (steps_of (commandOptimiseGitChanges host param) s)))
        < 2 ^ 53)%Z ->
     pngSavingsIn (commandOptimiseGitChanges host param s).2 =
       of_nat (list_sum (read_sizes (steps_of (commandOptimiseGitChanges host param) s))) /\
     pngSavingsOut (commandOptimiseGitChanges host param s).2 =
       of_nat (list_sum (result_sizes (steps_of (commandOptimiseGitChanges host param) s))) /\
     last (steps_of (commandOptimiseGitChanges host param) s) =
       Some (ShowInformationMessage
               ("Optimised " ++ toString (of_nat (length files)) ++ " PNGs " ++
                savingsStringPercent
                  (of_nat (list_sum (read_sizes
                     (steps_of (commandOptimiseGitChanges host param) s))))
                  (of_nat (list_sum (result_sizes
                     (steps_of (commandOptimiseGitChanges host param) s)))))%string)).
Proof.
  split.
  - intros param files s Hdir Hret.
    destruct (folder_spec host param files s Hdir) as (atts & [_ Hres] & Hsteps & Hin & Hout).
    rewrite Hret in Hres, Hsteps.
    destruct Hres as [(_ & _ & Hall)|(? & ? & ? & [=] & _)].
    rewrite Hsteps, Hin, Hout.
    assert (Hlast : last (folder_steps host param files atts (Returned tt)) =
                    Some (ShowInformationMessage (summary (length files) atts)))
      by (unfold folder_steps, batch_steps; rewrite !app_assoc; apply last_snoc).
    rewrite Hlast. unfold folder_steps.
    destruct (sizes_app [ReadDirectory param (inr files); ConsoleLog files]
                (batch_steps false (fileName host) (length files) atts (Returned tt)))
      as [-> ->].
    destruct (sizes_batch false (fileName host) (length files) atts Hall) as [-> ->].
    cbn [read_sizes result_sizes app]. intros Hsin Hsout.
    destruct (totals_exact atts Hall Hsin Hsout) as [Htin Htout].
    split; [exact Htin|]. split; [exact Htout|].
    unfold summary. rewrite Htin, Htout. reflexivity.
  - intros git param repo files s s1 Hgit Hsel Hfiles Hret.
    destruct (changes_steps_of host git param repo files s s1 Hgit Hsel Hfiles)
      as (atts & [_ Hres] & Hsteps & Hin & Hout).
    rewrite Hret in Hres, Hsteps.
    destruct Hres as [(_ & _ & Hall)|(? & ? & ? & [=] & _)].
    rewrite Hsteps, Hin, Hout.
    assert (Hlast : last (steps_of (selectRepository host git param) s ++
                          changes_steps host repo files atts (Returned tt)) =
                    Some (ShowInformationMessage (summary (length files) atts)))
      by (unfold changes_steps, batch_steps; rewrite !app_assoc; apply last_snoc).
    rewrite Hlast. unfold changes_steps.
    destruct (sizes_app (steps_of (selectRepository host git param) s)
                ([GitModifiedPNGs repo (inr files)] ++
                 batch_steps true (fun file => path_base host (fsPath file))
                   (length files) atts (Returned tt))) as [-> ->].
    destruct (sizes_select host git param s) as [-> ->].
    destruct (sizes_app [GitModifiedPNGs repo (inr files)]
                (batch_steps true (fun file => path_base host (fsPath file))
                   (length files) atts (Returned tt))) as [-> ->].
    destruct (sizes_batch true (fun file => path_base host (fsPath file))
                (length files) atts Hall) as [-> ->].
    cbn [read_sizes result_sizes app]. intros Hsin Hsout.
    destruct (totals_exact atts Hall Hsin Hsout) as [Htin Htout].
    split; [exact Htin|]. split; [exact Htout|].
    unfold summary. rewrite Htin, Htout. reflexivity.
Qed.

Lemma totals_are_sums_of_sizes_witness :
  readDirectoryRecursivePNGs (demo_host two_files None None) folder = inr two_files /\
  (commandOptimiseFolder (demo_host two_files None None) folder
     (initial five_disk)).1 = Returned tt /\
  pngSavingsIn (commandOptimiseFolder (demo_host two_files None None) folder
                  (initial five_disk)).2 =
    of_nat (list_sum (read_sizes
      (steps_of (commandOptimiseFolder (demo_host two_files None None) folder)
         (initial five_disk)))) /\
  list_sum (read_sizes
    (steps_of (commandOptimiseFolder (demo_host two_files None None) folder)
       (initial five_disk))) = 5%nat.
Proof.
  assert (Hret : (commandOptimiseFolder (demo_host two_files None None) folder
                    (initial five_disk)).1 = Returned tt) by (vm_compute; reflexivity).
  assert (Hin : list_sum (read_sizes
    (steps_of (commandOptimiseFolder (demo_host two_files None None) folder)
       (initial five_disk))) = 5%nat) by (vm_compute; reflexivity).
  assert (Hout : list_sum (result_sizes
    (steps_of (commandOptimiseFolder (demo_host two_files None None) folder)
       (initial five_disk))) = 3%nat) by (vm_compute; reflexivity).
  split; [reflexivity|]. split; [exact Hret|]. split; [|exact Hin].
  apply (proj1 (totals_are_sums_of_sizes (demo_host two_files None None))
           folder two_files (initial five_disk) eq_refl Hret).
  - rewrite Hin. reflexivity.
  - rewrite Hout. reflexivity.
Defined.

(** * Further properties of the commands *)

(** ** What is written *)

Lemma writes_app l1 l2 :
  writes (l1 ++ l2) = writes l1 ++ writes l2 /\
  engine_results (l1 ++ l2) = engine_results l1 ++ engine_results l2.
Proof.
  induction l1 as [|st l1 [IH1 IH2]]; [split; reflexivity|].
  destruct st; cbn; rewrite ?IH1, ?IH2; try (split; reflexivity).
  destruct result; cbn; rewrite ?IH2; split; reflexivity.
Qed.

Lemma closed_writes_results :
  closed (fun l => map snd (writes l) = engine_results l).
Proof.
  split; [reflexivity|]. intros l1 l2 H1 H2.
  destruct (writes_app l1 l2) as [-> ->]. rewrite map_app, H1, H2. reflexivity.
Qed.

Lemma writes_to_last_read_cur cur l :
  writes_to_last_read None l -> writes_to_last_read cur l.
Proof.
  induction l as [|st l IH]; [auto|].
  destruct st; cbn; auto. intros [[=] _].
Qed.

Lemma closed_writes_to_last_read : closed (writes_to_last_read None).
Proof.
  split; [exact I|].
  assert (Happ : forall l1 cur l2,
             writes_to_last_read cur l1 -> writes_to_last_read None l2 ->
             writes_to_last_read cur (l1 ++ l2)).
  { induction l1 as [|st l1 IH]; intros cur l2 H1 H2.
    - apply writes_to_last_read_cur, H2.
    - destruct st; cbn in *; try (apply IH; assumption).
      destruct H1 as [H1 H1']. split; [exact H1 | apply IH; assumption]. }
  intros l1 l2. apply Happ.
Qed.

Lemma closed_and (Q1 Q2 : list step -> Prop) :
  closed Q1 -> closed Q2 -> closed (fun l => Q1 l /\ Q2 l).
Proof.
  intros [N1 A1] [N2 A2]. split; [split; assumption|].
  intros l1 l2 [H1 H1'] [H2 H2']. split; [apply A1 | apply A2]; assumption.
Qed.

Lemma closed_writes_engine_results : closed writes_engine_results.
Proof. apply closed_and; [apply closed_writes_results | apply closed_writes_to_last_read]. Qed.

Lemma writes_engine_results_attempt pause label count a :
  writes_engine_results (attempt_steps pause label count a).
Proof. destruct a; destruct pause; cbn; repeat split. Qed.

(** X1: in the three commands, the data written are exactly the results
    that the engine returned, in the same order, each written once to the
    file that was read for that call; no other file is written. *)
Theorem every_write_stores_an_engine_result host :
  (forall param s, writes_engine_results (steps_of (commandOptimise host param) s)) /\
  (forall param s, writes_engine_results (steps_of (commandOptimiseFolder host param) s)) /\
  (forall param s,
     writes_engine_results (steps_of (commandOptimiseGitChanges host param) s)).
Proof.
  pose proof closed_writes_engine_results as HQ.
  split; [|split]; intros param s; apply emits_steps_of.
  - unfold commandOptimise, showInformationMessage.
    intros s0. unfold bind at 1. destruct (log _ s0) as [r0 s1] eqn:Hlog.
    unfold log in Hlog. injection Hlog as <- <-.
    unfold bind, await, readFile, optimise, log, of_result, ret, throw, writeFile. cbn.
    destruct (disk s0 !! fsPath param) as [in_data|]; cbn;
      [|eexists; split; [rewrite <- app_assoc; reflexivity | cbn; repeat split]].
    destruct (api_optimise host in_data 2 vscOxipng.safe) as [e|out_data]; cbn;
      eexists; (split; [rewrite <- !app_assoc; reflexivity | cbn; repeat split]).
  - unfold commandOptimiseFolder, readDirectory, consoleLog, withProgress,
      showInformationMessage, report.
    repeat emits_step HQ; try (cbn; repeat split; fail).
    eapply emits_ext; [apply folderBody_batchFile|].
    apply emits_bind; [exact HQ | apply emits_item; exact HQ | intros file].
    apply emits_batchFile. apply writes_engine_results_attempt.
  - unfold commandOptimiseGitChanges, selectRepository, modifiedPNGs,
      showQuickPick, withProgress, showInformationMessage, showErrorMessage,
      report.
    repeat emits_step HQ; try (cbn; repeat split; fail).
    eapply emits_ext; [apply gitBody_batchFile|].
    apply emits_bind; [exact HQ | apply emits_item; exact HQ | intros file].
    apply emits_batchFile. apply writes_engine_results_attempt.
Qed.

(** ** The command for one file *)

Lemma drain_idle_disk host s w :
  pending s = [w] ->
  disk (drain host s) =
    match write_error host w.1 with
    | None => <[fsPath w.1 := w.2]> (disk s)
    | Some _ => disk s
    end.
Proof. intros Hp. unfold drain. rewrite Hp. destruct w as [file data]. reflexivity. Qed.

(** X2: when the read and the engine call succeed, the command for one file
    shows the savings and returns while the write is still unsettled and the
    file unchanged. Afterwards the file holds the result of the engine, or,
    when the write fails, its old bytes, although the savings were shown. *)
Theorem single_file_reports_before_writing host param s in_data out_data :
  disk s !! fsPath param = Some in_data ->
  api_optimise host in_data 2 vscOxipng.safe = inr out_data ->
  pending s = [] ->
  (commandOptimise host param s).1 = Returned tt /\
  steps_of (commandOptimise host param) s =
    [ShowInformationMessage ("Called: " ++ fsPath param)%string;
     ReadFile param (inr in_data);
     Optimise in_data 2 vscOxipng.safe (inr out_data);
     ShowInformationMessage ("Optimised: " ++ fsPath param)%string;
     ShowInformationMessage
       (savingsString (of_nat (length in_data)) (of_nat (length out_data)));
     WriteFile param out_data] /\
  pending (commandOptimise host param s).2 = [(param, out_data)] /\
  disk (commandOptimise host param s).2 = disk s /\
  disk (drain host (commandOptimise host param s).2) =
    match write_error host param with
    | None => <[fsPath param := out_data]> (disk s)
    | Some _ => disk s
    end.
Proof.
  intros Hread Hopt Hidle.
  assert (Hrun : exists s',
    commandOptimise host param s = (Returned tt, s') /\
    history s' = history s ++
      [ShowInformationMessage ("Called: " ++ fsPath param)%string;
       ReadFile param (inr in_data);
       Optimise in_data 2 vscOxipng.safe (inr out_data);
       ShowInformationMessage ("Optimised: " ++ fsPath param)%string;
       ShowInformationMessage
         (savingsString (of_nat (length in_data)) (of_nat (length out_data)));
       WriteFile param out_data] /\
    pending s' = [(param, out_data)] /\ disk s' = disk s).
  { unfold commandOptimise. run_cmd. rewrite Hread. cbn. rewrite Hidle, take_nil, drop_nil.
    cbn. rewrite Hopt. cbn. rewrite take_nil, drop_nil. cbn.
    eexists. split; [reflexivity|]. cbn. rewrite <- !app_assoc. auto. }
  destruct Hrun as (s' & Hrun & Hh & Hp & Hd).
  split; [rewrite Hrun; reflexivity|].
  split; [apply steps_of_app; rewrite Hrun; exact Hh|].
  rewrite Hrun. cbn [snd]. split; [exact Hp|]. split; [exact Hd|].
  rewrite (drain_idle_disk host s' (param, out_data) Hp), Hd. reflexivity.
Qed.

Lemma single_file_reports_before_writing_witness :
  five_disk !! fsPath png1 = Some [Byte.x89; Byte.x50; Byte.x4e] /\
  disk (drain (demo_host [] None None)
          (commandOptimise (demo_host [] None None) png1 (initial five_disk)).2) =
    <["/w/1.png" := [Byte.x50; Byte.x4e]]> five_disk.
Proof.
  assert (Hread : disk (initial five_disk) !! fsPath png1 =
                  Some [Byte.x89; Byte.x50; Byte.x4e]) by (vm_compute; reflexivity).
  split; [exact Hread|].
  destruct (single_file_reports_before_writing (demo_host [] None None) png1
              (initial five_disk) [Byte.x89; Byte.x50; Byte.x4e] [Byte.x50; Byte.x4e]
              Hread eq_refl eq_refl) as (_ & _ & _ & _ & Hdisk).
  exact Hdisk.
Defined.

(** X3: when the command for one file fails, it fails with the error of the
    read or with the error of the engine call, it has shown nothing but the
    message "Called: ...", and it has started no write. *)
Theorem single_file_failure_writes_nothing host param s e :
  (commandOptimise host param s).1 = Thrown e ->
  (steps_of (commandOptimise host param) s =
     [ShowInformationMessage ("Called: " ++ fsPath param)%string;
      ReadFile param (inl e)] \/
   exists in_data,
     steps_of (commandOptimise host param) s =
       [ShowInformationMessage ("Called: " ++ fsPath param)%string;
        ReadFile param (inr in_data);
        Optimise in_data 2 vscOxipng.safe (inl e)]) /\
  writes (steps_of (commandOptimise host param) s) = [] /\
  (length (pending (commandOptimise host param s).2) <= length (pending s))%nat.
Proof.
  unfold steps_of, commandOptimise. run_cmd.
  destruct (disk s !! fsPath param) as [in_data|] eqn:Hread; cbn.
  - destruct (api_optimise host in_data 2 vscOxipng.safe) as [e'|out_data] eqn:Hopt; cbn;
      [|discriminate].
    intros [= ->]. rewrite <- !app_assoc, drop_app_length. cbn.
    split; [right; exists in_data; reflexivity|]. split; [reflexivity|].
    rewrite !length_drop. lia.
  - intros [= <-]. rewrite <- !app_assoc, drop_app_length. cbn.
    split; [left; reflexivity|]. split; [reflexivity|].
    rewrite !length_drop. lia.
Qed.

Lemma single_file_failure_writes_nothing_witness :
  (commandOptimise (demo_host [] None None) png3 (initial five_disk)).1 =
    Thrown {| message := "oxipng: not a PNG" |} /\
  writes (steps_of (commandOptimise (demo_host [] None None) png3) (initial five_disk)) = [].
Proof.
  assert (Hrun : (commandOptimise (demo_host [] None None) png3 (initial five_disk)).1 =
                 Thrown {| message := "oxipng: not a PNG" |}) by (vm_compute; reflexivity).
  split; [exact Hrun|].
  exact (proj1 (proj2 (single_file_failure_writes_nothing (demo_host [] None None) png3
                         (initial five_disk) _ Hrun))).
Defined.

(** ** Before a batch starts *)

(** X4: when the enumeration of the files fails, in the folder mode or in
    the change-set mode, the command fails with that error before the
    progress notification is opened: nothing is reported, read or written. *)
Theorem failed_enumeration_stops_command host :
  (forall param s e,
     readDirectoryRecursivePNGs host param = inl e ->
     (commandOptimiseFolder host param s).1 = Thrown e /\
     steps_of (commandOptimiseFolder host param) s = [ReadDirectory param (inl e)]) /\
  (forall git param repo s s1 e,
     gitApi host = Some git ->
     selectRepository host git param s = (Returned (Some repo), s1) ->
     gitModifiedPNGs host repo = inl e ->
     (commandOptimiseGitChanges host param s).1 = Thrown e /\
     steps_of (commandOptimiseGitChanges host param) s =
       steps_of (selectRepository host git param) s ++ [GitModifiedPNGs repo (inl e)]).
Proof.
  split.
  - intros param s e Hdir. unfold steps_of, commandOptimiseFolder. run_cmd.
    rewrite Hdir. cbn. rewrite drop_app_length. auto.
  - intros git param repo s s1 e Hgit Hsel Hfiles.
    pose proof (emits_history _ _ s (selectRepository_emits host git param)) as Hs.
    rewrite Hsel in Hs. cbn in Hs.
    unfold steps_of at 1. unfold commandOptimiseGitChanges.
    rewrite Hgit, bind_run, Hsel. run_cmd. rewrite Hfiles. cbn.
    split; [reflexivity|]. rewrite Hs, <- app_assoc. apply drop_app_length.
Qed.

Lemma failed_enumeration_stops_command_witness :
  let host :=
    {| api_optimise := demo_engine;
       read_error := fun _ => {| message := "EntryNotFound (FileSystemError)" |};
       write_error := fun _ => None;
       settles := fun _ => 16%nat;
       fileName := fsPath;
       readDirectoryRecursivePNGs := fun _ => inl {| message := "FileNotADirectory" |};
       path_base := fun p => p;
       gitApi := None;
       gitModifiedPNGs := fun _ => inr [];
       quickPick := fun _ => None |} in
  readDirectoryRecursivePNGs host folder = inl {| message := "FileNotADirectory" |} /\
  (commandOptimiseFolder host folder (initial five_disk)).1 =
    Thrown {| message := "FileNotADirectory" |}.
Proof.
  intros host. split; [reflexivity|].
  exact (proj1 (proj1 (failed_enumeration_stops_command host) folder (initial five_disk)
                  {| message := "FileNotADirectory" |} eq_refl)).
Defined.

(** X5: without the Git extension the change-set command only shows the
    error "Git extension isn't enabled": whatever its argument, it offers no
    choice, and it leaves the files, the unsettled writes and the
    accumulators as they are. *)
Theorem missing_git_extension_only_reports host param s :
  gitApi host = None ->
  commandOptimiseGitChanges host param s =
    (Returned tt, (log (ShowErrorMessage "Git extension isn't enabled") s).2) /\
  steps_of (commandOptimiseGitChanges host param) s =
    [ShowErrorMessage "Git extension isn't enabled"] /\
  disk (commandOptimiseGitChanges host param s).2 = disk s /\
  pending (commandOptimiseGitChanges host param s).2 = pending s.
Proof.
  intros Hgit. unfold steps_of, commandOptimiseGitChanges. rewrite Hgit. cbn.
  rewrite drop_app_length. auto.
Qed.

Lemma missing_git_extension_only_reports_witness :
  gitApi (demo_host two_files None None) = None /\
  steps_of (commandOptimiseGitChanges (demo_host two_files None None) None)
    (initial five_disk) = [ShowErrorMessage "Git extension isn't enabled"].
Proof.
  split; [reflexivity|].
  exact (proj1 (proj2 (missing_git_extension_only_reports (demo_host two_files None None)
                         None (initial five_disk) eq_refl))).
Defined.


(** X7: when no repository is selected (none exists, the choice is
    dismissed, the entry picked is the empty path, or [getRepository] finds
    nothing), the command shows "No repository found" after the steps of
    the selection and returns; it reads and writes no file and starts no
    progress report. *)
Theorem unresolved_repository_stops_command host git param s :
  gitApi host = Some git ->
  (selectRepository host git param s).1 = Returned None ->
  (commandOptimiseGitChanges host param s).1 = Returned tt /\
  steps_of (commandOptimiseGitChanges host param) s =
    steps_of (selectRepository host git param) s ++
    [ShowErrorMessage "No repository found"] /\
  Forall (fun st => touches_file st = false)
    (steps_of (commandOptimiseGitChanges host param) s) /\
  reports (steps_of (commandOptimiseGitChanges host param) s) = [].
Proof.
  intros Hgit Hsel.
  pose proof (emits_history _ _ s (selectRepository_emits host git param)) as Hs.
  destruct (selectRepository host git param s) as [r s1] eqn:Hrun.
  cbn in Hsel, Hs. subst r.
  assert (Hcmd : commandOptimiseGitChanges host param s =
                 showErrorMessage "No repository found" s1).
  { unfold commandOptimiseGitChanges. rewrite Hgit, bind_run, Hrun. reflexivity. }
  assert (Hsteps : steps_of (commandOptimiseGitChanges host param) s =
                   steps_of (selectRepository host git param) s ++
                   [ShowErrorMessage "No repository found"]).
  { apply steps_of_app. rewrite Hcmd. cbn. rewrite Hs, <- app_assoc. reflexivity. }
  rewrite Hsteps, Hcmd. split; [reflexivity|]. split; [reflexivity|]. split.
  - apply Forall_app. split; [|repeat constructor].
    apply (emits_steps_of (Forall (fun st => touches_file st = false))).
    assert (HQ : closed (Forall (fun st => touches_file st = false))) by apply closed_Forall.
    unfold selectRepository, showQuickPick. repeat emits_step HQ; repeat constructor.
  - rewrite reports_app, reports_select. reflexivity.
Qed.

Lemma unresolved_repository_stops_command_witness :
  (selectRepository (demo_host [] (Some (demo_git [repo1; repo2])) (Some ""))
     (demo_git [repo1; repo2]) None (initial five_disk)).1 = Returned None /\
  steps_of (commandOptimiseGitChanges
              (demo_host [] (Some (demo_git [repo1; repo2])) (Some "")) None)
    (initial five_disk) =
    steps_of (selectRepository (demo_host [] (Some (demo_git [repo1; repo2])) (Some ""))
                (demo_git [repo1; repo2]) None) (initial five_disk) ++
    [ShowErrorMessage "No repository found"].
Proof.
  assert (Hsel : (selectRepository (demo_host [] (Some (demo_git [repo1; repo2])) (Some ""))
                    (demo_git [repo1; repo2]) None (initial five_disk)).1 = Returned None)
    by (vm_compute; reflexivity).
  split; [exact Hsel|].
  exact (proj1 (proj2 (unresolved_repository_stops_command
                         (demo_host [] (Some (demo_git [repo1; repo2])) (Some ""))
                         (demo_git [repo1; repo2]) None (initial five_disk) eq_refl Hsel))).
Defined.

(** ** When a batch fails *)

Lemma failed_attempt_step pause label count a e :
  failure a = Some e ->
  Exists (fun st => call_error st = Some e) (attempt_steps pause label count a).
Proof.
  destruct a; cbn; intros [= ->]; repeat ((left; reflexivity) || right).
Qed.

Lemma thrown_batch_has_failed_call pause label files atts e :
  loop_result files atts (Thrown e) ->
  Exists (fun st => call_error st = Some e)
    (batch_steps pause label (length files) atts (Thrown e)).
Proof.
  intros [_ [([=] & _)|(done & a & e' & [= <-] & -> & _ & Hfail)]].
  unfold batch_steps. apply Exists_app. right. apply Exists_app. left.
  rewrite map_app, concat_app. apply Exists_app. right. cbn. rewrite app_nil_r.
  apply failed_attempt_step, Hfail.
Qed.

(** X8: once the files are enumerated, a batch command fails only with the
    error of a read or of an engine call that failed in it; in particular a
    write that fails never makes the command fail. *)
Theorem batch_fails_only_with_a_call_error host :
  (forall param files s e,
     readDirectoryRecursivePNGs host param = inr files ->
     (commandOptimiseFolder host param s).1 = Thrown e ->
     Exists (fun st => call_error st = Some e)
       (steps_of (commandOptimiseFolder host param) s)) /\
  (forall git param repo files s s1 e,
     gitApi host = Some git ->
     selectRepository host git param s = (Returned (Some repo), s1) ->
     gitModifiedPNGs host repo = inr files ->
     (commandOptimiseGitChanges host param s).1 = Thrown e ->
     Exists (fun st => call_error st = Some e)
       (steps_of (commandOptimiseGitChanges host param) s)).
Proof.
  split.
  - intros param files s e Hdir Hthrown.
    destruct (folder_spec host param files s Hdir) as (atts & Hres & Hsteps & _).
    rewrite Hthrown in Hres, Hsteps. rewrite Hsteps. unfold folder_steps.
    apply Exists_app. right. apply thrown_batch_has_failed_call, Hres.
  - intros git param repo files s s1 e Hgit Hsel Hfiles Hthrown.
    destruct (changes_steps_of host git param repo files s s1 Hgit Hsel Hfiles)
      as (atts & Hres & Hsteps & _).
    rewrite Hthrown in Hres, Hsteps. rewrite Hsteps. unfold changes_steps.
    apply Exists_app. right. apply Exists_app. right.
    apply thrown_batch_has_failed_call, Hres.
Qed.

Lemma batch_fails_only_with_a_call_error_witness :
  readDirectoryRecursivePNGs (demo_host five_files None None) folder = inr five_files /\
  (commandOptimiseFolder (demo_host five_files None None) folder
     (initial five_disk)).1 = Thrown {| message := "oxipng: not a PNG" |} /\
  Exists (fun st => call_error st = Some {| message := "oxipng: not a PNG" |})
    (steps_of (commandOptimiseFolder (demo_host five_files None None) folder)
       (initial five_disk)).
Proof.
  assert (Hrun : (commandOptimiseFolder (demo_host five_files None None) folder
                    (initial five_disk)).1 = Thrown {| message := "oxipng: not a PNG" |})
    by (vm_compute; reflexivity).
  split; [reflexivity|]. split; [exact Hrun|].
  exact (proj1 (batch_fails_only_with_a_call_error (demo_host five_files None None))
           folder five_files (initial five_disk) _ eq_refl Hrun).
Defined.

(** ** The summary of a file whose size does not change *)

(** X9: when the output has the size of the input, and that size is not
    zero, the summary is "(0.00% smaller)". *)
Theorem unchanged_size_shows_zero_percent a :
  (0 < a < 2 ^ 53)%Z ->
  savingsStringPercent (of_Z a) (of_Z a) = "(0.00% smaller)" /\
  savingsString (of_Z a) (of_Z a) = (toString (of_Z a) ++ " bytes (0.00% smaller)")%string.
Proof.
  intros Ha. assert (Hex : exact_integer a) by (unfold exact_integer; lia).
  destruct (savings_smaller a a Hex Hex ltac:(lia)) as [-> ->].
  rewrite Z.sub_diag. destruct a as [|a|a]; try lia.
  rewrite (of_Z_pos a) by lia. split; reflexivity.
Qed.

Lemma unchanged_size_shows_zero_percent_witness :
  (0 < 4096 < 2 ^ 53)%Z /\
  savingsStringPercent (of_Z 4096) (of_Z 4096) = "(0.00% smaller)".
Proof.
  split; [lia|]. exact (proj1 (unchanged_size_shows_zero_percent 4096 ltac:(lia))).
Defined.

(** ** The files after a command *)

Lemma disk_settled host ws : forall s,
  disk (foldl (fun acc w => settle_one host w acc) s ws) =
  foldl (apply_write host) (disk s) ws.
Proof.
  induction ws as [|[file data] ws IH]; intros s; [reflexivity|].
  cbn [foldl]. rewrite IH. reflexivity.
Qed.

Lemma drain_eventual host s : disk (drain host s) = eventual host s.
Proof. unfold drain, eventual. cbn. apply disk_settled. Qed.

Lemma suspend_disk host s :
  disk (suspend host s) =
  foldl (apply_write host) (disk s) (take (settles host (suspensions s)) (pending s)).
Proof. unfold suspend. cbn. apply disk_settled. Qed.

Lemma suspend_pending host s :
  pending (suspend host s) = drop (settles host (suspensions s)) (pending s).
Proof. reflexivity. Qed.

Lemma eventual_suspend host s : eventual host (suspend host s) = eventual host s.
Proof.
  unfold eventual. rewrite suspend_disk, suspend_pending, <- foldl_app, take_drop.
  reflexivity.
Qed.

Lemma apply_writes_other host p ws : forall d,
  p ∉ written_paths ws -> foldl (apply_write host) d ws !! p = d !! p.
Proof.
  induction ws as [|w ws IH]; intros d Hp; [reflexivity|].
  cbn [foldl]. cbn in Hp. apply not_elem_of_cons in Hp as [Hne Hp].
  rewrite IH by exact Hp. unfold apply_write.
  destruct (write_error host w.1); [reflexivity|]. apply lookup_insert_ne. congruence.
Qed.

Lemma files_follow_same host d0 ws s s' :
  disk s' = disk s -> pending s' = pending s ->
  files_follow host d0 ws s -> files_follow host d0 ws s'.
Proof.
  intros Hd Hp (H1 & H2 & H3). unfold files_follow, eventual. rewrite Hd, Hp.
  split; [exact H1|]. split; [exact H2|exact H3].
Qed.

Lemma files_follow_idle host s :
  pending s = [] -> files_follow host (disk s) [] s.
Proof.
  intros Hp. unfold files_follow, eventual. rewrite Hp. cbn.
  split; [|split]; [intros w Hw | auto | intros w Hw]; inversion Hw.
Qed.

Lemma files_follow_suspend host d0 ws s :
  files_follow host d0 ws s -> files_follow host d0 ws (suspend host s).
Proof.
  intros (H1 & H2 & H3). unfold files_follow. rewrite eventual_suspend.
  split; [exact H1|]. split.
  - intros p Hp. split; [apply H2, Hp|].
    rewrite suspend_disk, apply_writes_other; [apply H2, Hp|].
    intros Hin. apply Hp. unfold written_paths in *.
    apply list_elem_of_fmap in Hin as (w & -> & Hw).
    apply H3. eapply subseteq_take, Hw.
  - intros w Hw. apply H3. rewrite suspend_pending in Hw. eapply subseteq_drop, Hw.
Qed.

Lemma files_follow_write host d0 ws s file data :
  fsPath file ∉ written_paths ws ->
  files_follow host d0 ws s ->
  files_follow host d0 (ws ++ [(file, data)]) (writeFile file data s).2.
Proof.
  intros Hnew (H1 & H2 & H3).
  assert (Hev : eventual host (writeFile file data s).2 =
                apply_write host (eventual host s) (file, data)).
  { unfold eventual. cbn. rewrite foldl_app. reflexivity. }
  unfold files_follow. rewrite Hev. unfold written_paths. rewrite map_app. cbn.
  split; [|split].
  - intros w Hw. apply elem_of_app in Hw as [Hw|Hw].
    + assert (Hne : fsPath w.1 <> fsPath file).
      { intros Heq. apply Hnew. unfold written_paths. rewrite <- Heq.
        apply list_elem_of_fmap. exists w. auto. }
      unfold apply_write. cbn. destruct (write_error host file); [apply H1, Hw|].
      rewrite lookup_insert_ne by congruence. apply H1, Hw.
    + apply list_elem_of_singleton in Hw as ->.
      unfold apply_write, outcome_of_write. cbn.
      destruct (write_error host file); [apply H2, Hnew | apply lookup_insert_eq].
  - intros p Hp. apply not_elem_of_app in Hp as [Hp Hne].
    apply not_elem_of_cons in Hne as [Hne _].
    unfold apply_write. cbn. destruct (write_error host file); [apply H2, Hp|].
    rewrite lookup_insert_ne by congruence. apply H2, Hp.
  - intros w Hw. apply elem_of_app in Hw as [Hw|Hw].
    + apply elem_of_app. left. apply H3, Hw.
    + apply list_elem_of_singleton in Hw as ->. apply elem_of_app. right. cbn. left.
Qed.

Lemma hoare_bind {A B} P (m : M A) R (f : A -> M B) Q :
  hoare P m R -> (forall a, hoare (R a) (f a) Q) -> hoare P (bind m f) Q.
Proof.
  intros Hm Hf s HP. specialize (Hm s HP). rewrite bind_run.
  destruct (m s) as [[a|e] s1]; cbn in *; [apply Hf, Hm | exact I].
Qed.

Lemma hoare_ret {A} (a : A) (Q : A -> State -> Prop) : hoare (Q a) (ret a) Q.
Proof. intros s HP. exact HP. Qed.

Lemma hoare_post {A} (P : State -> Prop) (m : M A) (Q Q' : A -> State -> Prop) :
  (forall a s, Q a s -> Q' a s) -> hoare P m Q -> hoare P m Q'.
Proof.
  intros Himp Hm s HP. specialize (Hm s HP).
  destruct (m s).1; [apply Himp, Hm | exact I].
Qed.

Lemma hoare_fact {A} (F : Prop) (P : State -> Prop) (m : M A) Q :
  (F -> hoare P m Q) -> hoare (fun s => P s /\ F) m Q.
Proof. intros Hm s [HP HF]. apply Hm; assumption. Qed.

Lemma hoare_await host {A} P (m : M A) Q :
  (forall a s, Q a s -> Q a (suspend host s)) -> hoare P m Q -> hoare P (await host m) Q.
Proof.
  intros Hstable Hm s HP. specialize (Hm s HP). unfold await.
  destruct (m s) as [[a|e] s1]; cbn in *; [apply Hstable, Hm | exact I].
Qed.

Section Files.

Variable host : Host.
Variable d0 : gmap string bytes.

Lemma hoare_log ws st : hoare (files_follow host d0 ws) (log st) (fun _ => files_follow host d0 ws).
Proof. intros s HP. cbn. eapply files_follow_same; [| |exact HP]; reflexivity. Qed.

Lemma hoare_addSavings ws a b :
  hoare (files_follow host d0 ws) (addSavings a b) (fun _ => files_follow host d0 ws).
Proof. intros s HP. cbn. eapply files_follow_same; [| |exact HP]; reflexivity. Qed.

Lemma hoare_resetSavings ws :
  hoare (files_follow host d0 ws) resetSavings (fun _ => files_follow host d0 ws).
Proof. intros s HP. cbn. eapply files_follow_same; [| |exact HP]; reflexivity. Qed.

Lemma hoare_getSavings ws :
  hoare (files_follow host d0 ws) getSavings (fun _ => files_follow host d0 ws).
Proof. intros s HP. exact HP. Qed.

Lemma hoare_readFile ws file :
  fsPath file ∉ written_paths ws ->
  hoare (files_follow host d0 ws) (readFile host file)
    (fun data s => files_follow host d0 ws s /\ d0 !! fsPath file = Some data).
Proof.
  intros Hnew s HP. unfold readFile.
  assert (Hd : disk s !! fsPath file = d0 !! fsPath file)
    by (destruct HP as (_ & H2 & _); apply H2, Hnew).
  destruct (disk s !! fsPath file) as [data|]; cbn; [|exact I].
  split; [|symmetry; exact Hd]. eapply files_follow_same; [| |exact HP]; reflexivity.
Qed.

Lemma hoare_optimise ws data level strip :
  hoare (files_follow host d0 ws) (optimise host data level strip)
    (fun out s => files_follow host d0 ws s /\ api_optimise host data level strip = inr out).
Proof.
  intros s HP. unfold optimise. rewrite bind_run. cbn.
  destruct (api_optimise host data level strip) as [e|out]; cbn; [exact I|].
  split; [|reflexivity]. eapply files_follow_same; [| |exact HP]; reflexivity.
Qed.

Lemma hoare_writeFile ws file data :
  fsPath file ∉ written_paths ws ->
  hoare (files_follow host d0 ws) (writeFile file data)
    (fun _ => files_follow host d0 (ws ++ [(file, data)])).
Proof. intros Hnew s HP. apply files_follow_write; assumption. Qed.

Lemma follows_suspend ws (F : Prop) s :
  files_follow host d0 ws s /\ F -> files_follow host d0 ws (suspend host s) /\ F.
Proof. intros [H1 H2]. split; [apply files_follow_suspend, H1 | exact H2]. Qed.

(** One file: when the work on it returns, the bytes read were those of the
    start, and the result of the engine is the last of the writes. *)
Lemma batchFile_files pause label count file ws :
  fsPath file ∉ written_paths ws ->
  hoare (files_follow host d0 ws) (batchFile host pause label count file)
    (fun _ s => exists w, write_of host d0 file w /\ files_follow host d0 (ws ++ [w]) s).
Proof.
  intros Hnew. unfold batchFile, report, sleep.
  eapply hoare_bind; [apply hoare_log|]. intros u. cbn beta.
  eapply hoare_bind.
  { apply hoare_await; [|apply hoare_readFile, Hnew].
    intros a s. apply follows_suspend. }
  intros in_data. cbn beta. apply hoare_fact. intros Hin.
  eapply hoare_bind.
  { apply hoare_await; [|apply hoare_optimise].
    intros a s. apply follows_suspend. }
  intros out_data. cbn beta. apply hoare_fact. intros Hout.
  eapply hoare_bind with (R := fun _ => files_follow host d0 ws).
  { destruct pause; [|exact (hoare_ret tt (fun _ => files_follow host d0 ws))].
    apply hoare_await; [|apply hoare_log]. intros a s. apply files_follow_suspend. }
  intros u'.
  eapply hoare_bind; [apply hoare_addSavings|]. intros u''. cbn beta.
  eapply hoare_post; [|apply hoare_writeFile, Hnew].
  intros a s Hs. exists (file, out_data). split; [|exact Hs].
  split; [reflexivity|]. exists in_data. auto.
Qed.

(** The loop over files with distinct paths: one write per file, of what the
    engine made of the bytes the file held at the start. *)
Lemma each_files pause label count files : forall ws,
  NoDup (map fsPath files) ->
  (forall file, file ∈ files -> fsPath file ∉ written_paths ws) ->
  hoare (files_follow host d0 ws) (each files (batchFile host pause label count))
    (fun _ s => exists ws',
       Forall2 (write_of host d0) files ws' /\ files_follow host d0 (ws ++ ws') s).
Proof.
  induction files as [|file files IH]; intros ws Hdup Hnew; cbn [each].
  - intros s HP. cbn. exists []. rewrite app_nil_r. split; [constructor|exact HP].
  - cbn in Hdup. apply NoDup_cons in Hdup as [Hfile Hdup].
    eapply hoare_bind; [apply batchFile_files, Hnew; left|].
    intros u s (w & Hw & HP).
    assert (Hnew' : forall f, f ∈ files -> fsPath f ∉ written_paths (ws ++ [w])).
    { intros f Hf. unfold written_paths. rewrite map_app. cbn.
      apply not_elem_of_app. split; [apply Hnew; right; exact Hf|].
      apply not_elem_of_cons. split; [|apply not_elem_of_nil].
      destruct Hw as [-> _]. intros Heq. apply Hfile. rewrite <- Heq.
      apply list_elem_of_fmap. exists f. auto. }
    specialize (IH (ws ++ [w]) Hdup Hnew' s HP).
    destruct (each files (batchFile host pause label count) s).1; [|exact I].
    destruct IH as (ws' & Hall & HP'). exists (w :: ws').
    split; [constructor; assumption|]. rewrite <- app_assoc in HP'. exact HP'.
Qed.

(** A batch, from the first progress report to the summary. *)
Lemma batch_files pause label files body :
  (forall i s', body i s' =
     (file <- item files i ;; batchFile host pause label (length files) file) s') ->
  NoDup (map fsPath files) ->
  hoare (files_follow host d0 []) (batch host (length files) body)
    (fun _ s => exists ws, Forall2 (write_of host d0) files ws /\ files_follow host d0 ws s).
Proof.
  intros Hbody Hdup. unfold batch, withProgress, report, showInformationMessage.
  eapply hoare_bind; [apply hoare_resetSavings|]. intros u. cbn beta.
  eapply hoare_bind with
    (R := fun _ s => exists ws, Forall2 (write_of host d0) files ws /\ files_follow host d0 ws s).
  { apply hoare_await;
      [|eapply hoare_bind; [apply hoare_log|]; intros u1;
        eapply hoare_bind; [apply hoare_log|]; intros u2].
    - intros a s (ws & Hall & HP). exists ws. split; [exact Hall|].
      apply files_follow_suspend, HP.
    - intros s HP. rewrite (for_loop_files body _ files s Hbody).
      apply (each_files pause label (length files) files [] Hdup); [|exact HP].
      intros file _. apply not_elem_of_nil. }
  intros u3 s (ws & Hall & HP). rewrite bind_run. cbn.
  exists ws. split; [exact Hall|].
  eapply files_follow_same; [| |exact HP]; reflexivity.
Qed.

End Files.

(** What the files hold when every write is settled, from what [files_follow]
    says of the writes. *)
Lemma files_of_writes host d0 files ws s :
  Forall2 (write_of host d0) files ws ->
  files_follow host d0 ws s ->
  (forall file, file ∈ files ->
     exists in_data out_data,
       d0 !! fsPath file = Some in_data /\
       api_optimise host in_data 1 vscOxipng.safe = inr out_data /\
       disk (drain host s) !! fsPath file =
         Some (match write_error host file with
               | None => out_data
               | Some _ => in_data
               end)) /\
  (forall p, p ∉ map fsPath files -> disk (drain host s) !! p = d0 !! p).
Proof.
  intros Hall (H1 & H2 & _). rewrite drain_eventual. split.
  - intros file Hfile.
    apply list_elem_of_lookup in Hfile as [i Hi].
    destruct (Forall2_lookup_l _ _ _ _ _ Hall Hi) as (w & Hw & Heq & in_data & Hin & Hout).
    exists in_data, w.2. split; [exact Hin|]. split; [exact Hout|].
    specialize (H1 w (list_elem_of_lookup_2 _ _ _ Hw)).
    rewrite Heq in H1. rewrite H1. unfold outcome_of_write. rewrite Heq, Hin.
    destruct (write_error host file); reflexivity.
  - intros p Hp. apply H2.
    replace (written_paths ws) with (map fsPath files); [exact Hp|].
    clear -Hall. induction Hall as [|file w files ws [Hw _] _ IH]; [reflexivity|].
    cbn. rewrite IH, Hw. reflexivity.
Qed.

(** X10: after the folder command has returned and the host has carried out
    the writes, every file of the listing holds what the engine made, at
    level 1, of the bytes it held when the command started (or those bytes
    still, when its write failed), and every other file is untouched. The
    listing names no file twice, and no write is in flight at the start. *)
Theorem folder_files_hold_engine_results host param files s :
  pending s = [] ->
  readDirectoryRecursivePNGs host param = inr files ->
  NoDup (map fsPath files) ->
  (commandOptimiseFolder host param s).1 = Returned tt ->
  (forall file, file ∈ files ->
     exists in_data out_data,
       disk s !! fsPath file = Some in_data /\
       api_optimise host in_data 1 vscOxipng.safe = inr out_data /\
       disk (drain host (commandOptimiseFolder host param s).2) !! fsPath file =
         Some (match write_error host file with
               | None => out_data
               | Some _ => in_data
               end)) /\
  (forall p, p ∉ map fsPath files ->
     disk (drain host (commandOptimiseFolder host param s).2) !! p = disk s !! p).
Proof.
  intros Hidle Hdir Hdup Hret.
  set (s0 := (consoleLog files (suspend host (log (ReadDirectory param (inr files)) s).2)).2).
  assert (Hrun : commandOptimiseFolder host param s =
                 batch host (length files) (folderBody host files (length files)) s0).
  { unfold commandOptimiseFolder. run_cmd. rewrite Hdir. reflexivity. }
  assert (H0 : files_follow host (disk s) [] s0).
  { unfold s0, consoleLog.
    eapply files_follow_same; [reflexivity|reflexivity|].
    apply files_follow_suspend.
    eapply files_follow_same; [| |apply files_follow_idle, Hidle]; reflexivity. }
  pose proof (batch_files host (disk s) false (fileName host) files
                (folderBody host files (length files))
                (folderBody_batchFile host files (length files)) Hdup s0 H0) as Hb.
  rewrite Hrun in Hret |- *. rewrite Hret in Hb. destruct Hb as (ws & Hall & HP).
  exact (files_of_writes host (disk s) files ws _ Hall HP).
Qed.

Lemma folder_files_hold_engine_results_witness :
  NoDup (map fsPath two_files) /\
  (commandOptimiseFolder (demo_host two_files None None) folder
     (initial five_disk)).1 = Returned tt /\
  disk (drain (demo_host two_files None None)
          (commandOptimiseFolder (demo_host two_files None None) folder
             (initial five_disk)).2) !! "/w/3.png" = five_disk !! "/w/3.png".
Proof.
  assert (Hret : (commandOptimiseFolder (demo_host two_files None None) folder
                    (initial five_disk)).1 = Returned tt) by (vm_compute; reflexivity).
  assert (Hdup : NoDup (map fsPath two_files)).
  { apply (bool_decide_unpack (NoDup (map fsPath two_files))). vm_compute. exact I. }
  assert (Hother : "/w/3.png" ∉ map fsPath two_files).
  { apply (bool_decide_unpack ("/w/3.png" ∉ map fsPath two_files)). vm_compute. exact I. }
  split; [exact Hdup|]. split; [exact Hret|].
  exact (proj2 (folder_files_hold_engine_results (demo_host two_files None None) folder
                  two_files (initial five_disk) eq_refl eq_refl Hdup Hret)
           "/w/3.png" Hother).
Defined.

Lemma select_keeps_files host git param d0 ws :
  hoare (files_follow host d0 ws) (selectRepository host git param)
    (fun _ => files_follow host d0 ws).
Proof.
  unfold selectRepository. destruct param as [sc|].
  { exact (hoare_ret _ (fun _ => files_follow host d0 ws)). }
  destruct (repositories git) as [|r1 [|r2 rest]];
    [exact (hoare_ret _ (fun _ => files_follow host d0 ws)) ..|].
  eapply hoare_bind with (R := fun _ => files_follow host d0 ws).
  - apply hoare_await; [intros a s; apply files_follow_suspend|].
    unfold showQuickPick.
    eapply hoare_bind; [apply hoare_log|]. intros u.
    exact (hoare_ret _ (fun _ => files_follow host d0 ws)).
  - intros [path|]; [|exact (hoare_ret _ (fun _ => files_follow host d0 ws))].
    destruct (decide (path = ""));
      exact (hoare_ret _ (fun _ => files_follow host d0 ws)).
Qed.

(** X11: after the change-set command has returned and the host has carried
    out the writes, every file the repository reports as modified holds what
    the engine made, at level 1, of the bytes it held when the command
    started (or those bytes still, when its write failed), and every other
    file is untouched. The list names no file twice, and no write is in
    flight at the start. *)
Theorem changed_files_hold_engine_results host git param repo files s :
  pending s = [] ->
  gitApi host = Some git ->
  (selectRepository host git param s).1 = Returned (Some repo) ->
  gitModifiedPNGs host repo = inr files ->
  NoDup (map fsPath files) ->
  (commandOptimiseGitChanges host param s).1 = Returned tt ->
  (forall file, file ∈ files ->
     exists in_data out_data,
       disk s !! fsPath file = Some in_data /\
       api_optimise host in_data 1 vscOxipng.safe = inr out_data /\
       disk (drain host (commandOptimiseGitChanges host param s).2) !! fsPath file =
         Some (match write_error host file with
               | None => out_data
               | Some _ => in_data
               end)) /\
  (forall p, p ∉ map fsPath files ->
     disk (drain host (commandOptimiseGitChanges host param s).2) !! p = disk s !! p).
Proof.
  intros Hidle Hgit Hsel Hfiles Hdup Hret.
  pose proof (select_keeps_files host git param (disk s) [] s
                (files_follow_idle host s Hidle)) as H1.
  rewrite Hsel in H1.
  destruct (selectRepository host git param s) as [r s1] eqn:Hsel1.
  cbn in Hsel, H1. subst r.
  set (s0 := suspend host (log (GitModifiedPNGs repo (inr files)) s1).2).
  assert (Hrun : commandOptimiseGitChanges host param s =
                 batch host (length files) (gitBody host files (length files)) s0).
  { unfold commandOptimiseGitChanges. rewrite Hgit, bind_run, Hsel1.
    run_cmd. rewrite Hfiles. reflexivity. }
  assert (H0 : files_follow host (disk s) [] s0).
  { unfold s0. apply files_follow_suspend.
    eapply files_follow_same; [| |exact H1]; reflexivity. }
  pose proof (batch_files host (disk s) true (fun file => path_base host (fsPath file))
                files (gitBody host files (length files))
                (gitBody_batchFile host files (length files)) Hdup s0 H0) as Hb.
  rewrite Hrun in Hret |- *. rewrite Hret in Hb. destruct Hb as (ws & Hall & HP).
  exact (files_of_writes host (disk s) files ws _ Hall HP).
Qed.

Lemma changed_files_hold_engine_results_witness :
  NoDup (map fsPath two_files) /\
  (commandOptimiseGitChanges (demo_host two_files (Some (demo_git [repo1])) None) None
     (initial five_disk)).1 = Returned tt /\
  disk (drain (demo_host two_files (Some (demo_git [repo1])) None)
          (commandOptimiseGitChanges
             (demo_host two_files (Some (demo_git [repo1])) None) None
             (initial five_disk)).2) !! "/w/3.png" = five_disk !! "/w/3.png".
Proof.
  assert (Hret : (commandOptimiseGitChanges
                    (demo_host two_files (Some (demo_git [repo1])) None) None
                    (initial five_disk)).1 = Returned tt) by (vm_compute; reflexivity).
  assert (Hdup : NoDup (map fsPath two_files)).
  { apply (bool_decide_unpack (NoDup (map fsPath two_files))). vm_compute. exact I. }
  assert (Hother : "/w/3.png" ∉ map fsPath two_files).
  { apply (bool_decide_unpack ("/w/3.png" ∉ map fsPath two_files)). vm_compute. exact I. }
  split; [exact Hdup|]. split; [exact Hret|].
  exact (proj2 (changed_files_hold_engine_results
                  (demo_host two_files (Some (demo_git [repo1])) None)
                  (demo_git [repo1]) None repo1 two_files (initial five_disk)
                  eq_refl eq_refl eq_refl eq_refl Hdup Hret)
           "/w/3.png" Hother).
Defined.
